(** * Universal video downloader: format selection, filename sanitising and
      the bounded streaming relay of [app.py]

    The development embeds the decision logic of [app.py] in Rocq:
    [_safe_filename], [_pick_format] and the request handler [download].
    Python values are modelled as follows.
    - [str] is [string]; a character is its code point, so the strings of
      the model are the Python strings over code points 0..255.
    - [int] is [Z]; the numbers [tbr] and [duration] (floats in yt-dlp) are
      rationals [Q], of which only the order and the test against zero are
      used.
    - a format dictionary is a record of optional fields ([d.get(k)] is the
      field, [None] when the key is absent).
    - exceptions are the constructors of [exn]; a computation that may raise
      returns a [result]. *)

From Stdlib Require Import ZArith QArith List String Ascii Bool Lia.
From Stdlib Require Import Permutation Sorted.
From stdpp Require Import gmap.
Import ListNotations.

Local Open Scope string_scope.
Local Open Scope Z_scope.

(** ** Exceptions and results *)

(** The second argument of [abort]: which message the handler formats. *)
Inductive abort_msg :=
| InvalidURL          (* "Invalid URL. Must start with http/https." *)
| CouldNotProcess     (* "Could not process URL: ..." *)
| VideoTooLong        (* "Video too long (...s). Limit is ...s." *)
| NoFormatFound       (* "No downloadable video format found." *)
| FileTooLarge        (* "File too large (... MB). Limit is ... MB." *)
| ErrorFetching       (* "Error fetching video: ..." *)
| ExceededLimit       (* "Exceeded file size limit." *)
| ErrorDuringDownload (* "Error during download." *).

(** The exception classes the program meets.  All of them derive from
    Python's [Exception]: werkzeug declares [class HTTPException(Exception)],
    which is what [abort] raises. *)
Inductive exn :=
| HTTPException (status : Z) (msg : abort_msg)
| ValueError
| TypeError
| FileNotFoundError
| DownloadError
| RequestException
| OtherException.

Inductive result (A : Type) :=
| Ok (a : A)
| Raise (e : exn).
Arguments Ok {A} a.
Arguments Raise {A} e.

(** ** Python strings *)

Module PyStr.

Definition ord (c : ascii) : Z := Z.of_N (N_of_ascii c).

Definition in_range (lo hi : Z) (c : ascii) : bool :=
  (lo <=? ord c) && (ord c <=? hi).

(** [str.isspace] on one character: TAB..CR, FS..US, space, NEL, NBSP. *)
Definition isspace (c : ascii) : bool :=
  in_range 9 13 c || in_range 28 32 c || (ord c =? 133) || (ord c =? 160).

(** Characters on which [int] accepts a digit: the decimal digits. *)
Definition isdecimal (c : ascii) : bool := in_range 48 57 c.

(** [str.isdigit] on one character: the decimal digits and the superscript
    digits two, three and one (code points 178, 179, 185). *)
Definition isdigit_char (c : ascii) : bool :=
  isdecimal c || (ord c =? 178) || (ord c =? 179) || (ord c =? 185).

Fixpoint forallb_str (p : ascii -> bool) (s : string) : bool :=
  match s with
  | EmptyString => true
  | String c r => p c && forallb_str p r
  end.

(** [s.isdigit()]: every character is a digit and there is at least one. *)
Definition isdigit (s : string) : bool :=
  match s with
  | EmptyString => false
  | _ => forallb_str isdigit_char s
  end.

Fixpoint decimal_value (acc : Z) (s : string) : Z :=
  match s with
  | EmptyString => acc
  | String c r => decimal_value (10 * acc + (ord c - 48)) r
  end.

(** [sys.int_max_str_digits] as CPython sets it by default: [int] refuses
    to read a string of more digits. *)
Definition int_max_str_digits : Z := 4300.

(** [int(s)] for the arguments the program passes, those on which
    [s.isdigit()] holds (no sign, blank or underscore): the decimal value,
    and [ValueError] when a character is not a decimal digit or when the
    string has more than [int_max_str_digits] digits (leading zeros
    count). *)
Definition int (s : string) : result Z :=
  if forallb_str isdecimal s && negb (s =? "")%string
     && (Z.of_nat (String.length s) <=? int_max_str_digits)
  then Ok (decimal_value 0 s)
  else Raise ValueError.

Fixpoint lstrip (s : string) : string :=
  match s with
  | EmptyString => EmptyString
  | String c r => if isspace c then lstrip r else s
  end.

(** Drops trailing blanks: a blank is kept only when something that is kept
    follows it. *)
Fixpoint rstrip (s : string) : string :=
  match s with
  | EmptyString => EmptyString
  | String c r =>
      match rstrip r with
      | EmptyString => if isspace c then EmptyString else String c EmptyString
      | r' => String c r'
      end
  end.

(** [s.strip()] *)
Definition strip (s : string) : string := rstrip (lstrip s).

(** [c.lower()] for one character: A..Z and the capital letters of the
    upper half (192..222 but the multiplication sign 215) move by 32. *)
Definition lower_char (c : ascii) : ascii :=
  if in_range 65 90 c || (in_range 192 222 c && negb (ord c =? 215))
  then ascii_of_N (N_of_ascii c + 32)
  else c.

Fixpoint lower (s : string) : string :=
  match s with
  | EmptyString => EmptyString
  | String c r => String (lower_char c) (lower r)
  end.

(** [x or d] on an optional string: [None] and the empty string are falsy. *)
Definition or_str (x : option string) (d : string) : string :=
  match x with
  | Some s => if (s =? "")%string then d else s
  | None => d
  end.

(** [d.get(k) == s] and [d.get(k) != s] *)
Definition get_eq (x : option string) (s : string) : bool :=
  match x with
  | Some v => (v =? s)%string
  | None => false
  end.

Definition get_ne (x : option string) (s : string) : bool := negb (get_eq x s).

End PyStr.

(** ** Format candidates and [_pick_format] *)

Record Format := {
  ext : option string;
  vcodec : option string;
  acodec : option string;
  height : option Z;
  tbr : option Q;
  filesize : option Z;
  filesize_approx : option Z;
  url : option string
}.

(** [x or 0] on an optional integer and on an optional number. *)
Definition or_zero (x : option Z) : Z :=
  match x with
  | Some v => if v =? 0 then 0 else v
  | None => 0
  end.

Definition or_zeroQ (x : option Q) : Q :=
  match x with
  | Some v => if Qeq_bool v 0 then 0%Q else v
  | None => 0%Q
  end.

(** [score(f)] of the source: the pair [(height or 0, tbr or 0)]. *)
Definition score (f : Format) : Z * Q := (or_zero (height f), or_zeroQ (tbr f)).

(** [a < b] on such pairs, as Python compares tuples: the first components
    that differ decide. *)
Definition tuple_lt (a b : Z * Q) : bool :=
  if fst a =? fst b
  then (if Qeq_bool (snd a) (snd b) then false else negb (Qle_bool (snd b) (snd a)))
  else fst a <? fst b.

Section Sorted.
Context {A : Type} (key : A -> Z * Q).

(** Stable insertion: [x] stood before every element of [l] in the input,
    and it is placed before the first element whose key is not smaller. *)
Fixpoint insert_by (x : A) (l : list A) : list A :=
  match l with
  | [] => [x]
  | y :: ys => if tuple_lt (key y) (key x) then y :: insert_by x ys else x :: l
  end.

(** [sorted(l, key=key)]: the stable sort of [l] by ascending key. *)
Definition sorted (l : list A) : list A := fold_right insert_by [] l.
End Sorted.

Definition is_playable (f : Format) : bool :=
  PyStr.get_ne (vcodec f) "none" && PyStr.get_ne (acodec f) "none".

Definition is_mp4 (f : Format) : bool := PyStr.get_eq (ext f) "mp4".

(** [int(pref) if pref.isdigit() else None] *)
Definition target_height (pref : string) : result (option Z) :=
  if PyStr.isdigit pref
  then match PyStr.int pref with
       | Ok n => Ok (Some n)
       | Raise e => Raise e
       end
  else Ok None.

(** Truthiness of [target_h]: [None] and [0] are falsy. *)
Definition truthy (t : option Z) : option Z :=
  match t with
  | Some h => if h =? 0 then None else Some h
  | None => None
  end.

Definition under_height (h : Z) (l : list Format) : list Format :=
  List.filter (fun f => or_zero (height f) <=? h) l.

(** The body of either branch of [_pick_format] on the sorted list [l]
    ([sorted_mp4s], or [sorted_all]); [l[-1]] is [last l] and [l[0]] is
    [head l], both guarded in the source by the list being non-empty. *)
Definition choose (t : option Z) (l : list Format) : option Format :=
  match truthy t with
  | Some h =>
      match under_height h l with
      | [] => head l
      | under => last under
      end
  | None => last l
  end.

Definition _pick_format (formats : list Format) (pref : string)
  : result (option Format) :=
  let playable := List.filter is_playable formats in
  let mp4s := List.filter is_mp4 playable in
  match target_height pref with
  | Raise e => Raise e
  | Ok target_h =>
      match mp4s with
      | _ :: _ => Ok (choose target_h (sorted score mp4s))
      | [] => Ok (choose target_h (sorted score playable))
      end
  end.

(** ** [_safe_filename] *)

Module Filename.
Import PyStr.

(** The character class [[A-Za-z0-9._-]]. *)
Definition in_class (c : ascii) : bool :=
  in_range 65 90 c || in_range 97 122 c || in_range 48 57 c
  || (ord c =? 46) || (ord c =? 95) || (ord c =? 45).

(** [re.sub(r"[^A-Za-z0-9._-]+", "_", s)]: scanning from the left, a
    character of the class is copied; a character outside it starts a match,
    which is replaced by one underscore.  The match is greedy:
    [rest_of_match] takes the rest of the run of characters outside the
    class, and the scan goes on behind it. *)
Fixpoint re_sub_outside (s : string) : string :=
  match s with
  | EmptyString => EmptyString
  | String c r =>
      if in_class c then String c (re_sub_outside r)
      else String "_" (rest_of_match r)
  end
with rest_of_match (s : string) : string :=
  match s with
  | EmptyString => EmptyString
  | String c r =>
      if in_class c then String c (re_sub_outside r)
      else rest_of_match r
  end.

(** The alternatives of the group [(mp4|mov|webm|mkv)]. *)
Definition video_exts : list string := ["mp4"; "mov"; "webm"; "mkv"].

(** Matching the literal [lit] under [re.I] at the head of [s]; gives what
    follows the match. *)
Fixpoint match_literal_ci (lit s : string) : option string :=
  match lit, s with
  | EmptyString, _ => Some s
  | String p lit', String c s' =>
      if Ascii.eqb (lower_char c) p then match_literal_ci lit' s' else None
  | String _ _, EmptyString => None
  end.

(** [$] without [re.M]: the end of the string, or just before a newline
    that ends the string. *)
Definition at_dollar (s : string) : bool :=
  (s =? "")%string || (s =? String (ascii_of_N 10) "")%string.

(** [r"\.(mp4|mov|webm|mkv)$"] with [re.I], anchored at the head of [s]. *)
Definition match_ext_here (s : string) : bool :=
  match s with
  | String "." r =>
      existsb (fun e => match match_literal_ci e r with
                        | Some tl => at_dollar tl
                        | None => false
                        end) video_exts
  | _ => false
  end.

(** [re.search] tries every start position from the left. *)
Fixpoint re_search_ext (s : string) : bool :=
  match_ext_here s ||
  match s with
  | EmptyString => false
  | String _ r => re_search_ext r
  end.

Definition _safe_filename (name : option string) (default : string) : string :=
  let name := strip (or_str name default) in
  let name := re_sub_outside name in
  if negb (re_search_ext name) then name ++ ".mp4" else name.

(** *** The filename as the specification words it *)

(** Every character outside the class becomes an underscore. *)
Fixpoint replace_each (s : string) : string :=
  match s with
  | EmptyString => EmptyString
  | String c r => String (if in_class c then c else "_"%char) (replace_each r)
  end.

Fixpoint ends_with (suffix s : string) : bool :=
  (s =? suffix)%string ||
  match s with
  | EmptyString => false
  | String _ r => ends_with suffix r
  end.

(** The name ends in a dot and one of the extensions, in either case. *)
Definition has_video_ext (s : string) : bool :=
  existsb (fun e => ends_with ("." ++ e) (lower s)) video_exts.

Definition spec_filename (title : string) : string :=
  let name := replace_each title in
  if has_video_ext name then name else name ++ ".mp4".

(** *** The filename with runs merged *)

(** A character of the class is kept ([Some]); one outside is marked for
    replacement ([None]). *)
Fixpoint mark (s : string) : list (option ascii) :=
  match s with
  | EmptyString => []
  | String c r => (if in_class c then Some c else None) :: mark r
  end.

(** Adjacent marks are merged into one. *)
Fixpoint merge_marks (l : list (option ascii)) : list (option ascii) :=
  match l with
  | [] => []
  | None :: ((None :: _) as r) => merge_marks r
  | x :: r => x :: merge_marks r
  end.

Fixpoint render (l : list (option ascii)) : string :=
  match l with
  | [] => EmptyString
  | Some c :: r => String c (render r)
  | None :: r => String "_" (render r)
  end.

Definition merged_filename (title : option string) (default : string) : string :=
  let name := strip (or_str title default) in
  let name := render (merge_marks (mark name)) in
  if has_video_ext name then name else name ++ ".mp4".

End Filename.

(** ** The request handler [download] *)

Module Handler.
Import PyStr.

Abbreviation bytes := (list Byte.byte).

(** [len(chunk)] *)
Definition len (b : bytes) : Z := Z.of_nat (length b).

(** The constants of the [Config] block that the handler's decisions read.
    ([CHUNK] and [TIMEOUT] are arguments of the HTTP client only.) *)
Record Config := {
  MAX_BYTES : Z;
  MAX_DURATION_SEC : Z;
  ALLOWED_SCHEMES : list string
}.

Definition app_config : Config := {|
  MAX_BYTES := 300 * 1024 * 1024;
  MAX_DURATION_SEC := 10 * 60;
  ALLOWED_SCHEMES := ["http"; "https"]
|}.

(** What yt-dlp's [extract_info] returns, as far as the handler reads it. *)
Record Info := {
  duration : option Q;
  formats : option (list Format);
  title : option string
}.

Record Resolved := {
  top : Info;
  entries : option (list Info)
}.

(** The body of a streaming response, as [iter_content] delivers it: chunk
    after chunk, until it ends or the transfer fails with an exception. *)
Inductive stream :=
| SEnd
| SRaise (e : exn)
| SChunk (chunk : bytes) (rest : stream).

(** [requests.get]: it raises, or it returns a response with a status code
    and a body.  What it raises is a [RequestException] when requests
    reports the failure itself (no connection, timeout, too many
    redirects, ...), and another exception when one of its libraries does
    (urllib3's [LocationParseError] on a host it cannot parse, which is not
    a [RequestException]). *)
Inductive fetch_result :=
| GetRaised (e : exn)
| HttpResponse (status_code : Z) (body : stream).

(** The fetch that fails with a [RequestException]. *)
Abbreviation ConnectionFailed := (GetRaised RequestException).

Record Upload := {
  filename : string;
  content : bytes
}.

Record Request := {
  form_url : option string;
  form_quality : option string;
  file_cookies : option Upload
}.

(** The collaborators outside the program: [urlparse(url).scheme], or what
    [urlparse] raises on a URL it cannot split (a [ValueError] on a
    malformed bracketed host); yt-dlp; and the HTTP client. *)
Record Env := {
  urlparse_scheme : string -> result string;
  extract_info : string -> option N -> result Resolved;
  requests_get : string -> fetch_result
}.

(** What the handler does to the outside, in order. *)
Inductive event :=
| EvMkTemp (p : N)
| EvSave (p : N) (data : bytes)
| EvWrite (p : N) (chunk : bytes)
| EvUnlink (p : N)
| EvUnlinkMissing (p : N)
| EvExtract (u : string)
| EvGet (u : string).

(** The temporary directory (path to content), the log of effects, and the
    paths whose [_cleanup] closure [after_this_request] has registered. *)
Record World := {
  files : gmap N bytes;
  trace : list event;
  after_request : list N
}.

Definition log (e : event) (w : World) : World :=
  {| files := files w; trace := (trace w ++ [e])%list; after_request := after_request w |}.

Definition set_files (fs : gmap N bytes) (w : World) : World :=
  {| files := fs; trace := trace w; after_request := after_request w |}.

(** Computations of the handler: they read and change the world, and return
    or raise. *)
Definition M (A : Type) : Type := World -> result A * World.

#[global] Instance M_ret : MRet M := fun A a w => (Ok a, w).

#[global] Instance M_bind : MBind M := fun A B f m w =>
  match m w with
  | (Ok a, w') => f a w'
  | (Raise e, w') => (Raise e, w')
  end.

#[global] Instance M_throw : MThrow exn M := fun A e w => (Raise e, w).

(** [try: body except ...: handler].  [handler e] is [None] when no
    [except] clause matches the class of [e]. *)
Definition try_except {A} (body : M A) (handler : exn -> option (M A)) : M A :=
  fun w =>
    match body w with
    | (Ok a, w') => (Ok a, w')
    | (Raise e, w') =>
        match handler e with
        | Some h => h w'
        | None => (Raise e, w')
        end
    end.

(** [abort(status, msg)] *)
Definition abort {A} (status : Z) (msg : abort_msg) : M A :=
  mthrow (HTTPException status msg).

(** [tempfile.NamedTemporaryFile(delete=False)]: a new, empty file under a
    name that is not in use. *)
Definition NamedTemporaryFile : M N := fun w =>
  let p := fresh (dom (files w)) in
  (Ok p, log (EvMkTemp p) (set_files (<[p := []]> (files w)) w)).

(** [upload.save(path)] *)
Definition save (p : N) (data : bytes) : M unit := fun w =>
  (Ok tt, log (EvSave p data) (set_files (<[p := data]> (files w)) w)).

(** [tmp.write(chunk)] on the open temporary file. *)
Definition write (p : N) (chunk : bytes) : M unit := fun w =>
  (Ok tt, log (EvWrite p chunk) (set_files (alter (fun d => (d ++ chunk)%list) p (files w)) w)).

(** [os.unlink(path)]: removes the file, or raises when there is none. *)
Definition unlink (p : N) : M unit := fun w =>
  match files w !! p with
  | Some _ => (Ok tt, log (EvUnlink p) (set_files (delete p (files w)) w))
  | None => (Raise FileNotFoundError, log (EvUnlinkMissing p) w)
  end.

(** [after_this_request(_cleanup)], with [tmp_path] in the closure. *)
Definition after_this_request (p : N) : M unit := fun w =>
  (Ok tt, {| files := files w; trace := trace w; after_request := (after_request w ++ [p])%list |}).

Inductive response :=
| Attachment (download_name : string) (mimetype : string) (data : bytes)
| ErrorResponse (status : Z) (msg : abort_msg)
| InternalServerError (e : exn).

(** [send_file(path, as_attachment=True, ...)]: opens the file; the response
    carries what is in it. *)
Definition send_file (p : N) (download_name mimetype : string) : M response := fun w =>
  match files w !! p with
  | Some data => (Ok (Attachment download_name mimetype data), w)
  | None => (Raise FileNotFoundError, w)
  end.

Definition Qlt_bool (a b : Q) : bool := negb (Qle_bool b a).

Definition begin_request (w : World) : World :=
  {| files := files w; trace := trace w; after_request := [] |}.

Section WithConfig.
Variable cfg : Config.
Variable env : Env.

Definition request_url (req : Request) : string :=
  strip (or_str (form_url req) "").

Definition request_quality (req : Request) : string :=
  lower (strip (or_str (form_quality req) "best")).

(** Line 102: [parsed = urlparse(url)], which may raise. *)
Definition call_urlparse (u : string) : M string :=
  match urlparse_scheme env u with
  | Ok scheme => mret scheme
  | Raise e => mthrow e
  end.

(** [not url or parsed.scheme.lower() not in ALLOWED_SCHEMES], negated. *)
Definition url_check (u scheme : string) : bool :=
  negb (u =? "")%string &&
  existsb (String.eqb (lower scheme)) (ALLOWED_SCHEMES cfg).

(** The request passes lines 102-105: [urlparse] returns and the test lets
    the URL through. *)
Definition url_accepted (req : Request) : bool :=
  match urlparse_scheme env (request_url req) with
  | Ok scheme => url_check (request_url req) scheme
  | Raise _ => false
  end.

(** Lines 107-112: the uploaded cookie file, if one was sent. *)
Definition save_cookies (req : Request) : M (option N) :=
  match file_cookies req with
  | Some up =>
      if negb (filename up =? "")%string
      then p ← NamedTemporaryFile; save p (content up);; mret (Some p)
      else mret None
  | None => mret None
  end.

(** The path that [save_cookies] gives in the world [w]. *)
Definition cookie_path (req : Request) (w : World) : option N :=
  match file_cookies req with
  | Some up =>
      if negb (filename up =? "")%string then Some (fresh (dom (files w))) else None
  | None => None
  end.

Definition unlink_if (cookiefile : option N) : M unit :=
  match cookiefile with
  | Some p => unlink p
  | None => mret tt
  end.

Definition call_extract_info (u : string) (cookiefile : option N) : M Resolved :=
  fun w =>
    match extract_info env u cookiefile with
    | Ok r => (Ok r, log (EvExtract u) w)
    | Raise e => (Raise e, log (EvExtract u) w)
    end.

(** Lines 123-131. *)
Definition resolve (u : string) (cookiefile : option N) : M Resolved :=
  r ← try_except (call_extract_info u cookiefile)
        (fun e => match e with
                  | DownloadError =>
                      Some (unlink_if cookiefile;; abort 400 CouldNotProcess)
                  | _ => None
                  end);
  unlink_if cookiefile;;
  mret r.

(** Lines 133-135: the first entry of a playlist. *)
Definition first_entry (r : Resolved) : Info :=
  match entries r with
  | Some (e :: _) => e
  | _ => top r
  end.

(** [duration and duration > MAX_DURATION_SEC], with
    [duration = info.get("duration") or 0]. *)
Definition too_long (info : Info) : bool :=
  let duration := or_zeroQ (duration info) in
  negb (Qeq_bool duration 0) && Qlt_bool (inject_Z (MAX_DURATION_SEC cfg)) duration.

(** [_pick_format(info.get("formats"), quality)]; iterating [None]
    raises. *)
Definition pick (info : Info) (quality : string) : M (option Format) :=
  match formats info with
  | None => mthrow TypeError
  | Some fs =>
      match _pick_format fs quality with
      | Ok chosen => mret chosen
      | Raise e => mthrow e
      end
  end.

(** [chosen.get("filesize") or chosen.get("filesize_approx")] *)
Definition est_size (chosen : Format) : option Z :=
  match filesize chosen with
  | Some v => if v =? 0 then filesize_approx chosen else Some v
  | None => filesize_approx chosen
  end.

(** [est_size and est_size > MAX_BYTES] *)
Definition too_large (chosen : Format) : bool :=
  match est_size chosen with
  | Some v => negb (v =? 0) && (MAX_BYTES cfg <? v)
  | None => false
  end.

(** Lines 100-150: everything before the media is fetched.  It gives the
    metadata and the URL of the chosen format. *)
Definition preflight (req : Request) : M (Info * string) :=
  let u := request_url req in
  let quality := request_quality req in
  scheme ← call_urlparse u;
  if negb (url_check u scheme) then abort 400 InvalidURL else
  cookiefile ← save_cookies req;
  r ← resolve u cookiefile;
  let info := first_entry r in
  if too_long info then abort 413 VideoTooLong else
  chosen ← pick info quality;
  match chosen with
  | None => abort 415 NoFormatFound
  | Some chosen =>
      match url chosen with
      | None => abort 415 NoFormatFound
      | Some media_url =>
          if (media_url =? "")%string then abort 415 NoFormatFound else
          if too_large chosen then abort 413 FileTooLarge else
          mret (info, media_url)
      end
  end.

(** [r.raise_for_status()]: an [HTTPError], which is a
    [RequestException], for the statuses 400 to 599. *)
Definition raise_for_status (status_code : Z) : M unit :=
  if (400 <=? status_code) && (status_code <? 600)
  then mthrow RequestException
  else mret tt.

Definition call_requests_get (u : string) : M (Z * stream) := fun w =>
  match requests_get env u with
  | GetRaised e => (Raise e, log (EvGet u) w)
  | HttpResponse status_code body => (Ok (status_code, body), log (EvGet u) w)
  end.

(** Lines 153-157. *)
Definition fetch (media_url : string) : M stream :=
  try_except
    ('(status_code, body) ← call_requests_get media_url;
     raise_for_status status_code;;
     mret body)
    (fun e => match e with
              | RequestException => Some (abort 504 ErrorFetching)
              | _ => None
              end).

(** Lines 163-171: the loop over the chunks. *)
Fixpoint relay_loop (tmp_path : N) (written : Z) (body : stream) : M unit :=
  match body with
  | SEnd => mret tt
  | SRaise e => mthrow e
  | SChunk chunk rest =>
      match chunk with
      | [] => relay_loop tmp_path written rest
      | _ =>
          let written := written + len chunk in
          if MAX_BYTES cfg <? written
          then unlink tmp_path;; abort 413 ExceededLimit
          else write tmp_path chunk;; relay_loop tmp_path written rest
      end
  end.

(** Lines 159-177: the relay.  [except Exception] catches every class of
    [exn], the [HTTPException] of [abort] among them. *)
Definition stream_to_temp (body : stream) : M N :=
  tmp_path ← NamedTemporaryFile;
  try_except (relay_loop tmp_path 0 body)
    (fun _ => Some (unlink tmp_path;; abort 500 ErrorDuringDownload));;
  mret tmp_path.

(** The view function. *)
Definition download (req : Request) : M response :=
  '(info, media_url) ← preflight req;
  body ← fetch media_url;
  tmp_path ← stream_to_temp body;
  after_this_request tmp_path;;
  let filename := Filename._safe_filename (title info) "video" in
  send_file tmp_path filename "video/mp4".

(** [_cleanup]: [try: os.unlink(tmp_path) except: pass]. *)
Definition _cleanup (tmp_path : N) (w : World) : World :=
  snd (unlink tmp_path w).

(** Flask around the view: the request starts with no function
    registered; an [HTTPException] becomes the response with its
    status, any other exception a 500, and the registered functions run
    once the response is made. *)
Definition handle_request (req : Request) (w : World) : response * World :=
  let '(r, w') := download req (begin_request w) in
  let resp := match r with
              | Ok resp => resp
              | Raise (HTTPException status msg) => ErrorResponse status msg
              | Raise e => InternalServerError e
              end in
  (resp, fold_left (fun w p => _cleanup p w) (after_request w') w').

End WithConfig.

Definition status_of (r : response) : Z :=
  match r with
  | Attachment _ _ _ => 200
  | ErrorResponse status _ => status
  | InternalServerError _ => 500
  end.

(** [chunks] followed by [rest]. *)
Definition prepend (chunks : list bytes) (rest : stream) : stream :=
  fold_right SChunk rest chunks.

(** The bytes of a list of chunks. *)
Definition total_len (chunks : list bytes) : Z :=
  fold_right (fun c acc => len c + acc) 0 chunks.

(** The bytes that the events [evs] wrote to the file [p]. *)
Fixpoint bytes_written (p : N) (evs : list event) : Z :=
  match evs with
  | [] => 0
  | EvWrite q chunk :: r => (if N.eqb p q then len chunk else 0) + bytes_written p r
  | _ :: r => bytes_written p r
  end.

(** How often the events [evs] removed the file [p]. *)
Fixpoint unlink_count (p : N) (evs : list event) : nat :=
  match evs with
  | [] => O
  | EvUnlink q :: r => ((if N.eqb p q then 1 else 0) + unlink_count p r)%nat
  | _ :: r => unlink_count p r
  end.

Definition is_get (e : event) : bool :=
  match e with EvGet _ => true | _ => false end.

Definition is_mktemp (e : event) : bool :=
  match e with EvMkTemp _ => true | _ => false end.

Definition empty_world : World :=
  {| files := ∅; trace := []; after_request := [] |}.

End Handler.

(** ** Orders, candidate sets and the statements of the specification *)

(** The lexicographic order on keys [(height, bitrate)]. *)
Definition score_le (a b : Z * Q) : Prop :=
  fst a < fst b \/ (fst a = fst b /\ (snd a <= snd b)%Q).

(** The height of a candidate, zero when it is unknown. *)
Definition height_of (f : Format) : Z := or_zero (height f).

(** The candidates with both tracks, and the mp4 ones among them. *)
Definition playable (formats : list Format) : list Format :=
  List.filter is_playable formats.

Definition playable_mp4 (formats : list Format) : list Format :=
  List.filter is_mp4 (playable formats).

(** The set the selector chooses from: the mp4 candidates when there are
    some, all playable candidates otherwise. *)
Definition preferred (formats : list Format) : list Format :=
  match playable_mp4 formats with
  | [] => playable formats
  | mp4s => mp4s
  end.

(** The height property as the specification states it, over all playable
    candidates. *)
Definition height_capped_among_playable
    (formats : list Format) (pref : string) (H : Z) : Prop :=
  target_height pref = Ok (Some H) ->
  ((exists f, In f (playable formats) /\ height_of f <= H) ->
   exists c, _pick_format formats pref = Ok (Some c) /\ height_of c <= H) /\
  ((playable formats <> [] /\ forall f, In f (playable formats) -> H < height_of f) ->
   exists c, _pick_format formats pref = Ok (Some c) /\
             forall f, In f (playable formats) -> height_of c <= height_of f).

(** The order of the sort on the elements of a list. *)
Definition key_le {A : Type} (key : A -> Z * Q) (a b : A) : Prop :=
  score_le (key a) (key b).

(** A computation keeps the relation [R] between the world before and the
    world after, whatever it returns or raises. *)
Definition preserves (R : Handler.World -> Handler.World -> Prop) {A : Type}
    (m : Handler.M A) : Prop :=
  forall w r w', m w = (r, w') -> R w w'.

(** No request for media is sent and no function is registered to run
    after the request. *)
Definition quiet (w w' : Handler.World) : Prop :=
  List.filter Handler.is_get (Handler.trace w')
  = List.filter Handler.is_get (Handler.trace w) /\
  Handler.after_request w' = Handler.after_request w.

(** The file of the relay after the loop: removed once by the ceiling
    branch, or still there and holding what was written. *)
Definition loop_outcome (p : N) (written : Z) (r : result unit)
    (w' : Handler.World) (evs : list Handler.event) : Prop :=
  match r with
  | Ok _ =>
      Handler.unlink_count p evs = 0%nat /\
      exists d', Handler.files w' !! p = Some d' /\
                 Handler.len d' = written + Handler.bytes_written p evs
  | Raise e =>
      (Handler.files w' !! p = None /\ Handler.unlink_count p evs = 1%nat /\
       e = HTTPException 413 ExceededLimit) \/
      (Handler.unlink_count p evs = 0%nat /\
       exists d', Handler.files w' !! p = Some d' /\
                  Handler.len d' = written + Handler.bytes_written p evs)
  end.

(** The fetch property as the specification states it: a fetch that fails
    and every status outside 200..299 are refused. *)
Definition refused_by_spec (r : Handler.fetch_result) : Prop :=
  match r with
  | Handler.GetRaised _ => True
  | Handler.HttpResponse status_code _ => ~ (200 <= status_code < 300)
  end.

(** The fetch property as the specification states it, for a request that
    passed the checks before the fetch: a refused response gives the gateway
    error and the world is the one before the fetch, with the request
    logged. *)
Definition gateway_error_on_non_2xx
    (cfg : Handler.Config) (env : Handler.Env) (req : Handler.Request)
    (w : Handler.World) : Prop :=
  forall info u w1,
    Handler.preflight cfg env req (Handler.begin_request w) = (Ok (info, u), w1) ->
    refused_by_spec (Handler.requests_get env u) ->
    Handler.handle_request cfg env req w
    = (Handler.ErrorResponse 504 ErrorFetching, Handler.log (Handler.EvGet u) w1).

(** What the handler refuses: a fetch that raises a [RequestException], or
    a status from 400 to 599. *)
Definition refused (r : Handler.fetch_result) : Prop :=
  match r with
  | Handler.GetRaised e => e = RequestException
  | Handler.HttpResponse status_code _ => 400 <= status_code < 600
  end.

(** Sample data for the examples. *)
Module Samples.
Import Handler.

Definition candidate (e : string) (h : Z) (u : string) : Format :=
  {| ext := Some e; vcodec := Some "avc1"; acodec := Some "mp4a";
     height := Some h; tbr := None; filesize := None;
     filesize_approx := None; url := Some u |}.

Definition audio_only : Format :=
  {| ext := Some "m4a"; vcodec := Some "none"; acodec := Some "mp4a";
     height := None; tbr := Some (128 # 1)%Q; filesize := None;
     filesize_approx := None; url := Some "http://media/audio" |}.

Definition mp4_1080 := candidate "mp4" 1080 "http://media/1080.mp4".
Definition mp4_480 := candidate "mp4" 480 "http://media/480.mp4".
Definition mp4_240 := candidate "mp4" 240 "http://media/240.mp4".
Definition webm_720 := candidate "webm" 720 "http://media/720.webm".
Definition webm_360 := candidate "webm" 360 "http://media/360.webm".

(** The superscript two, a digit for [isdigit] that [int] does not read. *)
Definition superscript_two : string := String (ascii_of_N 178) "".

Definition info_of (d : Q) (fs : list Format) : Info :=
  {| duration := Some d; formats := Some fs; title := Some "a clip" |}.

Definition env_of (info : Info) (r : fetch_result) : Env :=
  {| urlparse_scheme := fun _ => Ok "https";
     extract_info := fun _ _ => Ok {| top := info; entries := None |};
     requests_get := fun _ => r |}.

Definition request : Request :=
  {| form_url := Some "https://example.org/watch";
     form_quality := Some "480";
     file_cookies := Some {| filename := "cookies.txt"; content := [Byte.x23] |} |}.

Definition small_config : Config :=
  {| MAX_BYTES := 3; MAX_DURATION_SEC := 600; ALLOWED_SCHEMES := ["http"; "https"] |}.

Definition two_bytes : bytes := [Byte.x00; Byte.x01].

(** One mebibyte of zero bytes, a chunk of the size [CHUNK]. *)
Definition mebibyte : bytes := repeat Byte.x00 (Z.to_nat (1024 * 1024)).

End Samples.

(** ** Ties between candidates *)

(** [c] is the last element of [l] among those with the greatest key:
    nothing before it has a greater key, and everything behind it has a
    smaller one. *)
Definition last_greatest (c : Format) (l : list Format) : Prop :=
  exists l1 l2, l = (l1 ++ c :: l2)%list /\
    (forall f, In f l1 -> score_le (score f) (score c)) /\
    (forall f, In f l2 -> ~ score_le (score c) (score f)).

(** [c] is the first element of [l] among those with the least key:
    everything before it has a greater key, and nothing behind it has a
    smaller one. *)
Definition first_least (c : Format) (l : list Format) : Prop :=
  exists l1 l2, l = (l1 ++ c :: l2)%list /\
    (forall f, In f l1 -> ~ score_le (score f) (score c)) /\
    (forall f, In f l2 -> score_le (score c) (score f)).

(** ** The checks before the fetch, as functions of the answers *)

Section Summaries.
Import PyStr Handler.

(** Lines 133-150 on the resolver's answer [r]: what is raised, or the
    metadata and the URL to fetch. *)
Definition checks (cfg : Config) (quality : string) (r : Resolved)
  : result (Info * string) :=
  let info := first_entry r in
  if too_long cfg info then Raise (HTTPException 413 VideoTooLong) else
  match formats info with
  | None => Raise TypeError
  | Some fs =>
      match _pick_format fs quality with
      | Raise e => Raise e
      | Ok None => Raise (HTTPException 415 NoFormatFound)
      | Ok (Some chosen) =>
          match url chosen with
          | None => Raise (HTTPException 415 NoFormatFound)
          | Some media_url =>
              if (media_url =? "")%string
              then Raise (HTTPException 415 NoFormatFound)
              else if too_large cfg chosen
                   then Raise (HTTPException 413 FileTooLarge)
                   else Ok (info, media_url)
          end
      end
  end.

(** Lines 100-150 in the world [w]: what [preflight] returns or raises. *)
Definition preflight_result (cfg : Config) (env : Env) (req : Request) (w : World)
  : result (Info * string) :=
  match urlparse_scheme env (request_url req) with
  | Raise e => Raise e
  | Ok scheme =>
      if negb (url_check cfg (request_url req) scheme)
      then Raise (HTTPException 400 InvalidURL)
      else
        match extract_info env (request_url req) (cookie_path req w) with
        | Ok r => checks cfg (request_quality req) r
        | Raise DownloadError => Raise (HTTPException 400 CouldNotProcess)
        | Raise e => Raise e
        end
  end.

(** The response Flask makes of what the view returned or raised. *)
Definition response_of (r : result response) : response :=
  match r with
  | Ok resp => resp
  | Raise (HTTPException status msg) => ErrorResponse status msg
  | Raise e => InternalServerError e
  end.

(** No request for media was sent between [w] and [w']. *)
Definition no_get (w w' : World) : Prop :=
  List.filter is_get (trace w') = List.filter is_get (trace w).

End Summaries.

(** More sample data: a resolver that raises, and metadata without the
    key "formats". *)
Module MoreSamples.
Import Handler.

Definition env_raising (e : exn) : Env :=
  {| urlparse_scheme := fun _ => Ok "https";
     extract_info := fun _ _ => Raise e;
     requests_get := fun _ => ConnectionFailed |}.

Definition info_without_formats : Info :=
  {| duration := Some (60 # 1)%Q; formats := None; title := Some "a clip" |}.

Definition mp4_without_url : Format :=
  {| ext := Some "mp4"; vcodec := Some "avc1"; acodec := Some "mp4a";
     height := Some 480; tbr := None; filesize := None;
     filesize_approx := None; url := None |}.

Definition mp4_huge : Format :=
  {| ext := Some "mp4"; vcodec := Some "avc1"; acodec := Some "mp4a";
     height := Some 2160; tbr := None; filesize := None;
     filesize_approx := Some (400 * 1024 * 1024); url := Some "http://media/2160.mp4" |}.

Definition request_with_quality (q : string) : Request :=
  {| form_url := Some "https://example.org/watch";
     form_quality := Some q;
     file_cookies := None |}.

Definition request_ftp : Request :=
  {| form_url := Some "ftp://example.org/clip.mp4";
     form_quality := None;
     file_cookies := None |}.

(** A URL that [urlparse] refuses to split. *)
Definition env_unparsable : Env :=
  {| urlparse_scheme := fun _ => Raise ValueError;
     extract_info := fun _ _ => Raise DownloadError;
     requests_get := fun _ => ConnectionFailed |}.

(** [n] zeros: a string of digits whose value is zero. *)
Fixpoint zeros (n : nat) : string :=
  match n with
  | O => EmptyString
  | S m => String "0" (zeros m)
  end.

Definition env_ftp : Env :=
  {| urlparse_scheme := fun _ => Ok "ftp";
     extract_info := fun _ _ => Raise DownloadError;
     requests_get := fun _ => ConnectionFailed |}.

End MoreSamples.


(** * Theorems *)

(** ** The order on keys *)

Lemma tuple_lt_false (a b : Z * Q) : tuple_lt a b = false <-> score_le b a.
Proof.
  unfold tuple_lt, score_le.
  destruct (Z.eqb_spec (fst a) (fst b)) as [Heq | Hne].
  - destruct (Qeq_bool (snd a) (snd b)) eqn:Hq.
    + apply Qeq_bool_iff in Hq. split; [intros _ | reflexivity].
      right. split; [congruence |]. rewrite Hq. apply Qle_refl.
    + rewrite negb_false_iff, Qle_bool_iff. split.
      * intros Hle. right. split; [congruence | exact Hle].
      * intros [Hlt | [_ Hle]]; [lia | exact Hle].
  - rewrite Z.ltb_ge. split.
    + intros Hle. left. lia.
    + intros [Hlt | [Heq _]]; [lia | congruence].
Qed.

Lemma tuple_lt_true (a b : Z * Q) : tuple_lt a b = true -> score_le a b.
Proof.
  unfold tuple_lt, score_le.
  destruct (Z.eqb_spec (fst a) (fst b)) as [Heq | Hne].
  - destruct (Qeq_bool (snd a) (snd b)) eqn:Hq; [discriminate |].
    rewrite negb_true_iff. intros Hle. right. split; [exact Heq |].
    destruct (Qlt_le_dec (snd b) (snd a)) as [Hlt | Hle']; [| exact Hle'].
    apply Qlt_le_weak in Hlt. apply Qle_bool_iff in Hlt. congruence.
  - rewrite Z.ltb_lt. intros Hlt. left. exact Hlt.
Qed.

Lemma score_le_refl (a : Z * Q) : score_le a a.
Proof. right. split; [reflexivity | apply Qle_refl]. Qed.

Lemma score_le_trans (a b c : Z * Q) : score_le a b -> score_le b c -> score_le a c.
Proof.
  unfold score_le. intros [H1 | [H1 H1']] [H2 | [H2 H2']].
  - left. lia.
  - left. lia.
  - left. lia.
  - right. split; [congruence | eapply Qle_trans; eassumption].
Qed.

Lemma score_le_fst (a b : Z * Q) : score_le a b -> fst a <= fst b.
Proof. intros [H | [H _]]; lia. Qed.

(** ** The stable sort *)

Section SortedFacts.
Context {A : Type} (key : A -> Z * Q).

Lemma insert_by_In (x y : A) (l : list A) :
  In y (insert_by key x l) <-> y = x \/ In y l.
Proof.
  induction l as [| z l IH]; simpl.
  - intuition congruence.
  - destruct (tuple_lt (key z) (key x)); simpl; rewrite ?IH; intuition congruence.
Qed.

Lemma sorted_In (y : A) (l : list A) : In y (sorted key l) <-> In y l.
Proof.
  induction l as [| x l IH]; simpl; [reflexivity |].
  rewrite insert_by_In, IH. intuition congruence.
Qed.

Lemma sorted_nil (l : list A) : sorted key l = [] -> l = [].
Proof.
  destruct l as [| x l]; [reflexivity |].
  intros Hnil. exfalso.
  assert (Hin : In x (sorted key (x :: l))) by (apply sorted_In; left; reflexivity).
  rewrite Hnil in Hin. exact Hin.
Qed.

Lemma insert_by_sorted (x : A) (l : list A) :
  StronglySorted (key_le key) l -> StronglySorted (key_le key) (insert_by key x l).
Proof.
  induction 1 as [| z l Hs IH Hall]; simpl.
  - constructor; constructor.
  - destruct (tuple_lt (key z) (key x)) eqn:Hlt.
    + constructor; [exact IH |].
      apply List.Forall_forall. intros y Hy. apply insert_by_In in Hy.
      destruct Hy as [-> | Hy].
      * apply tuple_lt_true. exact Hlt.
      * rewrite List.Forall_forall in Hall. apply Hall. exact Hy.
    + apply tuple_lt_false in Hlt.
      constructor; [constructor; assumption |].
      constructor; [exact Hlt |].
      apply List.Forall_forall. intros y Hy. rewrite List.Forall_forall in Hall.
      eapply score_le_trans; [exact Hlt | apply Hall; exact Hy].
Qed.

Lemma sorted_sorted (l : list A) : StronglySorted (key_le key) (sorted key l).
Proof.
  induction l as [| x l IH]; simpl; [constructor |].
  apply insert_by_sorted. exact IH.
Qed.

Lemma filter_sorted (p : A -> bool) (l : list A) :
  StronglySorted (key_le key) l -> StronglySorted (key_le key) (List.filter p l).
Proof.
  induction 1 as [| z l Hs IH Hall]; simpl; [constructor |].
  destruct (p z); [| exact IH].
  constructor; [exact IH |].
  rewrite List.Forall_forall in *. intros y Hy. apply List.filter_In in Hy.
  apply Hall. tauto.
Qed.

Lemma head_is_least (l : list A) (m : A) :
  StronglySorted (key_le key) l -> head l = Some m ->
  In m l /\ forall a, In a l -> key_le key m a.
Proof.
  intros Hs Hhd. destruct l as [| z l]; [discriminate |].
  simpl in Hhd. injection Hhd as ->. inversion Hs as [| ? ? _ Hall]; subst.
  split; [left; reflexivity |].
  intros a [-> | Ha]; [apply score_le_refl |].
  rewrite List.Forall_forall in Hall. apply Hall. exact Ha.
Qed.

Lemma last_is_greatest (l : list A) (m : A) :
  StronglySorted (key_le key) l -> last l = Some m ->
  In m l /\ forall a, In a l -> key_le key a m.
Proof.
  induction 1 as [| z l Hs IH Hall]; [discriminate |].
  destruct l as [| z' l'].
  - simpl. intros Hlast. injection Hlast as ->.
    split; [left; reflexivity |].
    intros a [-> | []]. apply score_le_refl.
  - intros Hlast. change (last (z' :: l') = Some m) in Hlast.
    destruct (IH Hlast) as [Hin Hmax].
    split; [right; exact Hin |].
    intros a [-> | Ha]; [| apply Hmax; exact Ha].
    rewrite List.Forall_forall in Hall. apply Hall. exact Hin.
Qed.

Lemma last_nonempty (l : list A) : l <> [] -> exists m, last l = Some m.
Proof.
  induction l as [| z l IH]; [congruence |].
  intros _. destruct l as [| z' l']; [exists z; reflexivity |].
  destruct IH as [m Hm]; [discriminate |]. exists m. exact Hm.
Qed.
End SortedFacts.

(** ** The format selector *)

Lemma preferred_cases (formats : list Format) :
  (playable_mp4 formats <> [] /\ preferred formats = playable_mp4 formats) \/
  (playable_mp4 formats = [] /\ preferred formats = playable formats).
Proof.
  unfold preferred. destruct (playable_mp4 formats) as [| f l].
  - right. split; reflexivity.
  - left. split; [discriminate | reflexivity].
Qed.

Lemma preferred_nonempty (formats : list Format) :
  playable formats <> [] -> preferred formats <> [].
Proof.
  intros Hp. destruct (preferred_cases formats) as [[Hne ->] | [_ ->]]; assumption.
Qed.

Lemma preferred_playable (formats : list Format) (f : Format) :
  In f (preferred formats) -> In f formats /\ is_playable f = true.
Proof.
  intros Hin. apply List.filter_In.
  destruct (preferred_cases formats) as [[_ Heq] | [_ Heq]]; rewrite Heq in Hin.
  - unfold playable_mp4 in Hin. apply List.filter_In in Hin. apply Hin.
  - exact Hin.
Qed.

(** Both branches of [_pick_format] choose from the sorted preferred set. *)
Lemma pick_format_preferred (formats : list Format) (pref : string) (t : option Z) :
  target_height pref = Ok t ->
  _pick_format formats pref = Ok (choose t (sorted score (preferred formats))).
Proof.
  intros Ht. unfold _pick_format, preferred, playable_mp4, playable. rewrite Ht.
  destruct (List.filter is_mp4 (List.filter is_playable formats)); reflexivity.
Qed.

Lemma target_height_best : target_height "best" = Ok None.
Proof. reflexivity. Qed.

Lemma int_raises (s : string) :
  s <> "" ->
  ((exists e, PyStr.int s = Raise e) <->
   PyStr.forallb_str PyStr.isdecimal s = false \/
   PyStr.int_max_str_digits < Z.of_nat (String.length s)) /\
  (forall e, PyStr.int s = Raise e -> e = ValueError).
Proof.
  intros Hne. unfold PyStr.int.
  assert (Hnz : negb (s =? "")%string = true).
  { destruct s; [congruence | reflexivity]. }
  rewrite Hnz, andb_true_r.
  destruct (PyStr.forallb_str PyStr.isdecimal s); cbn [andb].
  - destruct (Z.leb_spec (Z.of_nat (String.length s)) PyStr.int_max_str_digits)
      as [Hle | Hgt].
    + split; [| intros e He; discriminate He]. split.
      * intros [e He]. discriminate He.
      * intros [Hf | Hlt]; [discriminate Hf | lia].
    + split; [| intros e He; congruence]. split.
      * intros _. right. exact Hgt.
      * intros _. exists ValueError. reflexivity.
  - split; [| intros e He; congruence]. split.
    + intros _. left. reflexivity.
    + intros _. exists ValueError. reflexivity.
Qed.

Lemma target_height_raises (pref : string) :
  (exists e, target_height pref = Raise e) <->
  PyStr.isdigit pref = true /\
  (PyStr.forallb_str PyStr.isdecimal pref = false \/
   PyStr.int_max_str_digits < Z.of_nat (String.length pref)).
Proof.
  unfold target_height.
  destruct (PyStr.isdigit pref) eqn:Hd.
  - assert (Hne : pref <> "") by (intros ->; discriminate Hd).
    destruct (int_raises pref Hne) as [Hiff _]. rewrite <- Hiff.
    destruct (PyStr.int pref) as [n | e].
    + split; [intros [e He]; discriminate He | intros [_ [e He]]; discriminate He].
    + split; [intros _; split; [reflexivity | exists e; reflexivity]
             | intros _; exists e; reflexivity].
  - split; [intros [e He]; discriminate He | intros [Hf _]; discriminate Hf].
Qed.

(** Without a playable candidate the selector gives [None], whenever the
    preference is read without an exception. *)
Lemma pick_format_none (formats : list Format) (pref : string) (t : option Z) :
  target_height pref = Ok t -> playable formats = [] ->
  _pick_format formats pref = Ok None.
Proof.
  intros Ht Hp. rewrite (pick_format_preferred _ _ _ Ht).
  destruct (preferred_cases formats) as [[Hne _] | [_ ->]].
  - exfalso. apply Hne. unfold playable_mp4. rewrite Hp. reflexivity.
  - rewrite Hp. unfold choose. destruct (truthy t); reflexivity.
Qed.

(** X1: what the selector returns is a candidate of the input list with
    both tracks present. *)
Lemma pick_format_playable (formats : list Format) (pref : string) (c : Format) :
  _pick_format formats pref = Ok (Some c) -> In c formats /\ is_playable c = true.
Proof.
  intros Hpick. destruct (target_height pref) as [t | e] eqn:Ht.
  - rewrite (pick_format_preferred _ _ _ Ht) in Hpick. injection Hpick as Hc.
    apply preferred_playable. apply (sorted_In score). unfold choose in Hc.
    assert (Hlast : forall l, last l = Some c -> In c l).
    { intros l Hl. induction l as [| z [| z' l'] IH]; [discriminate | | ].
      - injection Hl as ->. left. reflexivity.
      - right. apply IH. exact Hl. }
    destruct (truthy t) as [h |]; [| apply Hlast; exact Hc].
    destruct (under_height h (sorted score (preferred formats))) as [| u us] eqn:Hu.
    + destruct (sorted score (preferred formats)); [discriminate |].
      injection Hc as ->. left. reflexivity.
    + apply Hlast in Hc. rewrite <- Hu in Hc. unfold under_height in Hc.
      apply List.filter_In in Hc. apply Hc.
  - unfold _pick_format in Hpick. rewrite Ht in Hpick. discriminate.
Qed.

(** C4: for the preference "best" and a candidate list with a playable
    candidate, the selector returns a candidate whose key (height or zero,
    bitrate or zero) is the greatest among the playable mp4 candidates when
    there are some, and the greatest among all playable candidates
    otherwise. *)
Theorem pick_format_best_maximal (formats : list Format) :
  playable formats <> [] ->
  exists c, _pick_format formats "best" = Ok (Some c) /\
    (playable_mp4 formats <> [] ->
       In c (playable_mp4 formats) /\
       forall f, In f (playable_mp4 formats) -> score_le (score f) (score c)) /\
    (playable_mp4 formats = [] ->
       In c (playable formats) /\
       forall f, In f (playable formats) -> score_le (score f) (score c)).
Proof.
  intros Hp. rewrite (pick_format_preferred _ _ _ target_height_best).
  unfold choose. simpl truthy. cbv iota.
  destruct (last_nonempty (sorted score (preferred formats))) as [c Hc].
  { intros Hnil. apply sorted_nil in Hnil. exact (preferred_nonempty _ Hp Hnil). }
  exists c. split; [rewrite Hc; reflexivity |].
  destruct (last_is_greatest score _ _ (sorted_sorted score _) Hc) as [Hin Hmax].
  apply sorted_In in Hin.
  assert (Hmax' : forall f, In f (preferred formats) -> score_le (score f) (score c)).
  { intros f Hf. apply Hmax. apply sorted_In. exact Hf. }
  destruct (preferred_cases formats) as [[Hne Heq] | [Hnil Heq]]; rewrite Heq in Hin, Hmax'.
  - split; [intros _; split; assumption | intros Hnil; contradiction].
  - split; [intros Hne; contradiction | intros _; split; assumption].
Qed.

Lemma pick_format_best_maximal_witness :
  playable [Samples.mp4_480; Samples.webm_720; Samples.mp4_1080] <> [] /\
  exists c, _pick_format [Samples.mp4_480; Samples.webm_720; Samples.mp4_1080] "best"
            = Ok (Some c) /\
    (playable_mp4 [Samples.mp4_480; Samples.webm_720; Samples.mp4_1080] <> [] ->
       In c (playable_mp4 [Samples.mp4_480; Samples.webm_720; Samples.mp4_1080]) /\
       forall f, In f (playable_mp4 [Samples.mp4_480; Samples.webm_720; Samples.mp4_1080]) ->
                 score_le (score f) (score c)) /\
    (playable_mp4 [Samples.mp4_480; Samples.webm_720; Samples.mp4_1080] = [] ->
       In c (playable [Samples.mp4_480; Samples.webm_720; Samples.mp4_1080]) /\
       forall f, In f (playable [Samples.mp4_480; Samples.webm_720; Samples.mp4_1080]) ->
                 score_le (score f) (score c)).
Proof.
  split.
  - vm_compute. discriminate.
  - apply (pick_format_best_maximal [Samples.mp4_480; Samples.webm_720; Samples.mp4_1080]).
    vm_compute. discriminate.
Defined.

(** C1, as amended: for a preference that reads as a positive height [H]
    and a candidate list with a playable candidate, the selector returns a
    candidate of the preferred set (the playable mp4 candidates when there
    are some, all playable candidates otherwise).  When a candidate of that
    set has height at most [H], the returned one has height at most [H] and
    the greatest key among those; when none has, the returned one has the
    least height of the set. *)
Theorem pick_format_capped (formats : list Format) (pref : string) (H : Z) :
  target_height pref = Ok (Some H) -> 0 < H -> playable formats <> [] ->
  exists c, _pick_format formats pref = Ok (Some c) /\
    In c (preferred formats) /\
    ((exists f, In f (preferred formats) /\ height_of f <= H) ->
       height_of c <= H /\
       forall f, In f (preferred formats) -> height_of f <= H ->
                 score_le (score f) (score c)) /\
    ((forall f, In f (preferred formats) -> H < height_of f) ->
       forall f, In f (preferred formats) -> height_of c <= height_of f).
Proof.
  intros Ht Hpos Hp. rewrite (pick_format_preferred _ _ _ Ht).
  set (l := sorted score (preferred formats)).
  assert (Hs : StronglySorted (key_le score) l) by apply sorted_sorted.
  assert (Hl : forall f, In f l <-> In f (preferred formats)) by (intro; apply sorted_In).
  assert (Hne : l <> []).
  { intros Hnil. apply sorted_nil in Hnil. exact (preferred_nonempty _ Hp Hnil). }
  unfold choose. simpl truthy.
  destruct (Z.eqb_spec H 0) as [-> | _]; [lia |].
  destruct (under_height H l) as [| u us] eqn:Hu.
  - destruct l as [| c l'] eqn:El; [congruence |].
    exists c. split; [reflexivity |].
    destruct (head_is_least score (c :: l') c Hs eq_refl) as [Hin Hmin].
    split; [apply Hl; exact Hin |]. split.
    + intros [f [Hf Hh]]. exfalso. apply Hl in Hf.
      assert (Hin' : In f (under_height H (c :: l'))).
      { apply List.filter_In. split; [exact Hf |]. apply Z.leb_le. exact Hh. }
      rewrite Hu in Hin'. exact Hin'.
    + intros _ f Hf. apply Hl in Hf. apply (score_le_fst _ _ (Hmin f Hf)).
  - destruct (last_nonempty (u :: us)) as [c Hc]; [discriminate |].
    exists c. split; [rewrite Hc; reflexivity |].
    rewrite <- Hu in Hc.
    destruct (last_is_greatest score _ _ (filter_sorted score _ _ Hs) Hc) as [Hin Hmax].
    pose proof Hin as Hin'. apply List.filter_In in Hin'. destruct Hin' as [Hcl Hch].
    apply Z.leb_le in Hch. fold (height_of c) in Hch.
    split; [apply Hl; exact Hcl |]. split.
    + intros _. split; [exact Hch |].
      intros f Hf Hh. apply Hmax. apply List.filter_In.
      split; [apply Hl; exact Hf | apply Z.leb_le; exact Hh].
    + intros Hall. apply Hl in Hcl. specialize (Hall c Hcl). lia.
Qed.

Lemma pick_format_capped_witness :
  target_height "480" = Ok (Some 480) /\ 0 < 480 /\
  playable [Samples.mp4_1080; Samples.mp4_480; Samples.webm_720] <> [] /\
  exists c, _pick_format [Samples.mp4_1080; Samples.mp4_480; Samples.webm_720] "480"
            = Ok (Some c) /\
    In c (preferred [Samples.mp4_1080; Samples.mp4_480; Samples.webm_720]) /\
    ((exists f, In f (preferred [Samples.mp4_1080; Samples.mp4_480; Samples.webm_720]) /\
                height_of f <= 480) ->
       height_of c <= 480 /\
       forall f, In f (preferred [Samples.mp4_1080; Samples.mp4_480; Samples.webm_720]) ->
                 height_of f <= 480 -> score_le (score f) (score c)) /\
    ((forall f, In f (preferred [Samples.mp4_1080; Samples.mp4_480; Samples.webm_720]) ->
                480 < height_of f) ->
       forall f, In f (preferred [Samples.mp4_1080; Samples.mp4_480; Samples.webm_720]) ->
                 height_of c <= height_of f).
Proof.
  split; [reflexivity |]. split; [lia |]. split; [vm_compute; discriminate |].
  apply (pick_format_capped [Samples.mp4_1080; Samples.mp4_480; Samples.webm_720] "480" 480).
  - reflexivity.
  - lia.
  - vm_compute. discriminate.
Defined.

(** C1 as the specification states it fails: with a 1080p mp4 and a 360p
    webm, both playable, and the preference "480", a playable candidate of
    height at most 480 exists and the selector returns the 1080p mp4. *)
Lemma height_capped_among_playable_fails :
  ~ height_capped_among_playable [Samples.mp4_1080; Samples.webm_360] "480" 480.
Proof.
  intros Hclaim. destruct (Hclaim eq_refl) as [Hcap _].
  destruct Hcap as [c [Hpick Hh]].
  - exists Samples.webm_360. split; [simpl; tauto | vm_compute; discriminate].
  - vm_compute in Hpick. injection Hpick as <-. vm_compute in Hh. apply Hh. reflexivity.
Qed.

(** The scenarios of the specification. *)
Example pick_format_scenario_480 :
  _pick_format [Samples.mp4_1080; Samples.mp4_480; Samples.webm_720] "480"
  = Ok (Some Samples.mp4_480).
Proof. reflexivity. Qed.

Example pick_format_scenario_240 :
  _pick_format [Samples.mp4_240] "720" = Ok (Some Samples.mp4_240).
Proof. reflexivity. Qed.

(** A preference made of digits that [int] reads, with the value zero, is
    treated as "best". *)
Theorem pick_format_zero_as_best (formats : list Format) (pref : string) :
  PyStr.isdigit pref = true -> PyStr.int pref = Ok 0 ->
  _pick_format formats pref = _pick_format formats "best".
Proof.
  intros Hd Hi.
  assert (Ht : target_height pref = Ok (Some 0)).
  { unfold target_height. rewrite Hd, Hi. reflexivity. }
  rewrite (pick_format_preferred _ _ _ Ht).
  rewrite (pick_format_preferred _ _ _ target_height_best).
  reflexivity.
Qed.

Lemma pick_format_zero_as_best_witness :
  PyStr.isdigit "00" = true /\ PyStr.int "00" = Ok 0 /\
  _pick_format [Samples.mp4_240; Samples.mp4_1080] "00"
  = _pick_format [Samples.mp4_240; Samples.mp4_1080] "best".
Proof.
  split; [reflexivity |]. split; [reflexivity |].
  apply (pick_format_zero_as_best [Samples.mp4_240; Samples.mp4_1080] "00"); reflexivity.
Defined.

(** C10, at the input where the code departs from it: 4301 zeros are a
    string of digits whose value is zero, [int] refuses to read a string of
    that length, and the selector raises, whatever the candidates, where
    "best" returns. *)
Theorem pick_format_long_zero_raises (formats : list Format) :
  PyStr.isdigit (MoreSamples.zeros 4301) = true /\
  PyStr.decimal_value 0 (MoreSamples.zeros 4301) = 0 /\
  _pick_format formats (MoreSamples.zeros 4301) = Raise ValueError /\
  _pick_format formats (MoreSamples.zeros 4301) <> _pick_format formats "best".
Proof.
  assert (Ht : target_height (MoreSamples.zeros 4301) = Raise ValueError).
  { vm_compute. reflexivity. }
  assert (Hraise : _pick_format formats (MoreSamples.zeros 4301) = Raise ValueError).
  { unfold _pick_format. rewrite Ht. reflexivity. }
  split; [vm_compute; reflexivity |]. split; [vm_compute; reflexivity |].
  split; [exact Hraise |].
  rewrite Hraise, (pick_format_preferred _ _ _ target_height_best). discriminate.
Qed.

(** A string of 4300 zeros is still read, and selects as "best" does. *)
Example pick_format_4300_zeros :
  target_height (MoreSamples.zeros 4300) = Ok (Some 0).
Proof. vm_compute. reflexivity. Qed.

(** C5, at the input where the code departs from it: the superscript two
    passes [isdigit], [int] rejects it, and the selector raises instead of
    returning [None] on an empty candidate list. *)
Theorem pick_format_superscript_raises :
  PyStr.isdigit Samples.superscript_two = true /\
  _pick_format [] Samples.superscript_two = Raise ValueError.
Proof. split; reflexivity. Qed.

(** ** The suggested filename *)

Section FilenameFacts.
Import PyStr Filename.

Ltac each_char c :=
  destruct c as [[] [] [] [] [] [] [] []]; try reflexivity; try discriminate.

Lemma in_class_not_space (c : ascii) : in_class c = true -> isspace c = false.
Proof. each_char c. Qed.

Lemma at_dollar_in_class (c : ascii) (r : string) :
  in_class c = true -> at_dollar (String c r) = false.
Proof. each_char c. Qed.

Lemma lower_char_dot (c : ascii) :
  c <> "."%char -> Ascii.eqb (lower_char c) "." = false.
Proof. intros Hne. each_char c. congruence. Qed.

Lemma match_ext_here_not_dot (c : ascii) (r : string) :
  c <> "."%char -> match_ext_here (String c r) = false.
Proof. intros Hne. each_char c. congruence. Qed.

Lemma forallb_str_app (p : ascii -> bool) (s t : string) :
  forallb_str p (s ++ t) = forallb_str p s && forallb_str p t.
Proof.
  induction s as [| c s IH]; simpl; [reflexivity |].
  rewrite IH. apply andb_assoc.
Qed.

(** What the substitution returns has all its characters in the class. *)
Lemma re_sub_outside_in_class (s : string) :
  forallb_str in_class (re_sub_outside s) = true /\
  forallb_str in_class (rest_of_match s) = true.
Proof.
  induction s as [| c s [IHsub IHrest]]; simpl; [split; reflexivity |].
  destruct (in_class c) eqn:Hc; simpl; rewrite ?Hc, ?IHsub, ?IHrest; split; reflexivity.
Qed.

(** On a name of class characters only, stripping and substituting change
    nothing. *)
Lemma lstrip_in_class (s : string) : forallb_str in_class s = true -> lstrip s = s.
Proof.
  destruct s as [| c s]; simpl; [reflexivity |].
  intros Hall. apply andb_prop in Hall. destruct Hall as [Hc _].
  rewrite (in_class_not_space _ Hc). reflexivity.
Qed.

Lemma rstrip_in_class (s : string) : forallb_str in_class s = true -> rstrip s = s.
Proof.
  induction s as [| c s IH]; simpl; [reflexivity |].
  intros Hall. apply andb_prop in Hall. destruct Hall as [Hc Hs].
  rewrite (IH Hs). destruct s; [| reflexivity].
  rewrite (in_class_not_space _ Hc). reflexivity.
Qed.

Lemma strip_in_class (s : string) : forallb_str in_class s = true -> strip s = s.
Proof.
  intros Hall. unfold strip. rewrite (lstrip_in_class _ Hall). apply rstrip_in_class, Hall.
Qed.

Lemma re_sub_outside_in_class_id (s : string) :
  forallb_str in_class s = true -> re_sub_outside s = s.
Proof.
  induction s as [| c s IH]; simpl; [reflexivity |].
  intros Hall. apply andb_prop in Hall. destruct Hall as [Hc Hs].
  rewrite Hc, (IH Hs). reflexivity.
Qed.

Lemma re_search_ext_app_mp4 (s : string) : re_search_ext (s ++ ".mp4") = true.
Proof.
  induction s as [| c s IH]; [reflexivity |].
  change (match_ext_here (String c (s ++ ".mp4")) || re_search_ext (s ++ ".mp4") = true).
  rewrite IH. apply orb_true_r.
Qed.

Lemma safe_filename_in_class (name : option string) (default : string) :
  forallb_str in_class (_safe_filename name default) = true.
Proof.
  unfold _safe_filename.
  destruct (re_sub_outside_in_class (strip (or_str name default))) as [Hall _].
  destruct (re_search_ext _); simpl; [exact Hall |].
  rewrite forallb_str_app, Hall. reflexivity.
Qed.

Lemma safe_filename_has_ext (name : option string) (default : string) :
  re_search_ext (_safe_filename name default) = true.
Proof.
  unfold _safe_filename.
  destruct (re_search_ext (re_sub_outside (strip (or_str name default)))) eqn:Hs; simpl.
  - exact Hs.
  - apply re_search_ext_app_mp4.
Qed.

(** C9: sanitising a sanitised filename changes nothing. *)
Theorem safe_filename_idempotent (name : option string) (default : string) :
  _safe_filename (Some (_safe_filename name default)) default
  = _safe_filename name default.
Proof.
  pose proof (safe_filename_in_class name default) as Hall.
  pose proof (safe_filename_has_ext name default) as Hext.
  set (r := _safe_filename name default) in *.
  assert (Hor : or_str (Some r) default = r).
  { simpl. destruct r; [discriminate Hext | reflexivity]. }
  unfold _safe_filename at 1.
  rewrite Hor, (strip_in_class _ Hall), (re_sub_outside_in_class_id _ Hall), Hext.
  reflexivity.
Qed.

(** The scanner and the merging of marks agree. *)
Lemma re_sub_outside_merge (s : string) :
  re_sub_outside s = render (merge_marks (mark s)) /\
  String "_" (rest_of_match s) = render (merge_marks (None :: mark s)).
Proof.
  induction s as [| c s [IHsub IHrest]]; [split; reflexivity |].
  simpl re_sub_outside. simpl rest_of_match. simpl mark.
  destruct (in_class c).
  - split.
    + simpl. rewrite IHsub. reflexivity.
    + simpl. rewrite IHsub. reflexivity.
  - split.
    + exact IHrest.
    + rewrite IHrest. reflexivity.
Qed.

Lemma existsb_orb {A : Type} (f g : A -> bool) (l : list A) :
  existsb (fun x => f x || g x) l = existsb f l || existsb g l.
Proof.
  induction l as [| x l IH]; simpl; [reflexivity |].
  rewrite IH. destruct (f x), (g x), (existsb f l); reflexivity.
Qed.

Lemma existsb_pointwise {A : Type} (f g : A -> bool) (l : list A) :
  (forall x, f x = g x) -> existsb f l = existsb g l.
Proof.
  intros Hfg. induction l as [| x l IH]; simpl; [reflexivity |].
  rewrite Hfg, IH. reflexivity.
Qed.

(** On a name without a newline, the literal matches up to [$] exactly when
    the lowered name is the literal. *)
Lemma match_literal_ci_dollar (lit r : string) :
  forallb_str in_class r = true ->
  match match_literal_ci lit r with
  | Some tl => at_dollar tl
  | None => false
  end = (lower r =? lit)%string.
Proof.
  revert r. induction lit as [| p lit IH]; intros r Hall.
  - destruct r as [| c r]; [reflexivity |].
    simpl in Hall. apply andb_prop in Hall. destruct Hall as [Hc _].
    change (at_dollar (String c r) = (lower (String c r) =? "")%string).
    rewrite (at_dollar_in_class _ _ Hc). reflexivity.
  - destruct r as [| c r]; [reflexivity |].
    simpl in Hall. apply andb_prop in Hall. destruct Hall as [_ Hr].
    simpl. destruct (Ascii.eqb (lower_char c) p); [apply IH; exact Hr | reflexivity].
Qed.

Lemma match_ext_here_lower (s : string) :
  forallb_str in_class s = true ->
  match_ext_here s = existsb (fun e => (lower s =? "." ++ e)%string) video_exts.
Proof.
  intros Hall. destruct s as [| c r]; [reflexivity |].
  simpl in Hall. apply andb_prop in Hall. destruct Hall as [_ Hr].
  destruct (Ascii.eqb_spec c ".") as [-> | Hne].
  - change (existsb (fun e => match match_literal_ci e r with
                              | Some tl => at_dollar tl
                              | None => false
                              end) video_exts
            = existsb (fun e => (lower (String "." r) =? "." ++ e)%string) video_exts).
    apply existsb_pointwise. intros e. rewrite (match_literal_ci_dollar _ _ Hr).
    reflexivity.
  - rewrite (match_ext_here_not_dot _ _ Hne). symmetry.
    transitivity (existsb (fun _ : string => false) video_exts); [| reflexivity].
    apply existsb_pointwise. intros e. simpl. rewrite (lower_char_dot _ Hne). reflexivity.
Qed.

(** On such a name the search of the source is the test for an extension
    at the end. *)
Lemma re_search_ext_has_video_ext (s : string) :
  forallb_str in_class s = true -> re_search_ext s = has_video_ext s.
Proof.
  induction s as [| c s IH]; [reflexivity |].
  intros Hall. pose proof Hall as Hall'.
  simpl in Hall'. apply andb_prop in Hall'. destruct Hall' as [_ Hs].
  change (match_ext_here (String c s) || re_search_ext s = has_video_ext (String c s)).
  rewrite (IH Hs), (match_ext_here_lower _ Hall).
  unfold has_video_ext. rewrite <- existsb_orb.
  apply existsb_pointwise. intros e. reflexivity.
Qed.

(** C8, as amended: the title, or "video" when it is absent or empty, is
    stripped of surrounding blanks; every character outside A-Z, a-z, 0-9,
    dot, dash and underscore is marked, adjacent marks are merged and each
    remaining mark becomes one underscore; ".mp4" is appended unless the
    name ends, in either case, in .mp4, .mov, .webm or .mkv. *)
Theorem safe_filename_merges_runs (title : option string) (default : string) :
  _safe_filename title default = merged_filename title default.
Proof.
  unfold _safe_filename, merged_filename.
  destruct (re_sub_outside_merge (strip (or_str title default))) as [Heq _].
  destruct (re_sub_outside_in_class (strip (or_str title default))) as [Hall _].
  rewrite (re_search_ext_has_video_ext _ Hall), <- Heq.
  destruct (has_video_ext _); reflexivity.
Qed.

(** C8 as the specification states it fails: the two blanks of "a  b"
    become one underscore, not two. *)
Lemma safe_filename_not_charwise :
  _safe_filename (Some "a  b") "video" = "a_b.mp4" /\
  spec_filename "a  b" = "a__b.mp4" /\
  _safe_filename (Some "a  b") "video" <> spec_filename "a  b".
Proof. split; [reflexivity |]. split; [reflexivity |]. vm_compute. discriminate. Qed.

End FilenameFacts.

(** ** The request handler *)

Section HandlerFacts.
Import PyStr Handler.

(** *** Relations between worlds that every step keeps *)

Section Preserved.
Variable R : World -> World -> Prop.
Hypothesis R_refl : forall w, R w w.
Hypothesis R_trans : forall w1 w2 w3, R w1 w2 -> R w2 w3 -> R w1 w3.

Lemma preserves_ret {A : Type} (a : A) : preserves R (mret a).
Proof. intros w r w' Heq. injection Heq as _ <-. apply R_refl. Qed.

Lemma preserves_throw {A : Type} (e : exn) : preserves R (mthrow (M := M) (A := A) e).
Proof. intros w r w' Heq. injection Heq as _ <-. apply R_refl. Qed.

Lemma preserves_bind {A B : Type} (m : M A) (f : A -> M B) :
  preserves R m -> (forall a, preserves R (f a)) -> preserves R (m ≫= f).
Proof.
  intros Hm Hf w r w' Heq. unfold mbind, M_bind in Heq.
  destruct (m w) as [[a | e] w1] eqn:Hmw.
  - eapply R_trans; [eapply Hm; exact Hmw | eapply Hf; exact Heq].
  - injection Heq as _ <-. eapply Hm; exact Hmw.
Qed.

Lemma preserves_try_except {A : Type} (m : M A) (h : exn -> option (M A)) :
  preserves R m -> (forall e k, h e = Some k -> preserves R k) ->
  preserves R (try_except m h).
Proof.
  intros Hm Hh w r w' Heq. unfold try_except in Heq.
  destruct (m w) as [[a | e] w1] eqn:Hmw.
  - injection Heq as _ <-. eapply Hm; exact Hmw.
  - destruct (h e) as [k |] eqn:Hhe.
    + eapply R_trans; [eapply Hm; exact Hmw | eapply Hh; eassumption].
    + injection Heq as _ <-. eapply Hm; exact Hmw.
Qed.

Hypothesis R_mktemp : preserves R NamedTemporaryFile.
Hypothesis R_save : forall p data, preserves R (save p data).
Hypothesis R_unlink : forall p, preserves R (unlink p).
Hypothesis R_extract : forall env u ck, preserves R (call_extract_info env u ck).

Lemma preserves_abort {A : Type} (status : Z) (msg : abort_msg) :
  preserves R (abort (A := A) status msg).
Proof. apply preserves_throw. Qed.

Lemma preserves_unlink_if (ck : option N) : preserves R (unlink_if ck).
Proof. destruct ck; [apply R_unlink | apply preserves_ret]. Qed.

Lemma preserves_save_cookies (req : Request) : preserves R (save_cookies req).
Proof.
  unfold save_cookies. destruct (file_cookies req) as [up |]; [| apply preserves_ret].
  destruct (negb _); [| apply preserves_ret].
  apply preserves_bind; [apply R_mktemp |]. intros p.
  apply preserves_bind; [apply R_save |]. intros _. apply preserves_ret.
Qed.

Lemma preserves_resolve (env : Env) (u : string) (ck : option N) :
  preserves R (resolve env u ck).
Proof.
  unfold resolve. apply preserves_bind.
  - apply preserves_try_except; [apply R_extract |].
    intros e k Hk. destruct e; try discriminate. injection Hk as <-.
    apply preserves_bind; [apply preserves_unlink_if |].
    intros _. apply preserves_abort.
  - intros r. apply preserves_bind; [apply preserves_unlink_if |].
    intros _. apply preserves_ret.
Qed.

Lemma preserves_pick (info : Info) (quality : string) : preserves R (pick info quality).
Proof.
  unfold pick. destruct (formats info) as [fs |]; [| apply preserves_throw].
  destruct (_pick_format fs quality); [apply preserves_ret | apply preserves_throw].
Qed.

(** Everything before the fetch is made of the four steps above. *)
Lemma preserves_preflight (cfg : Config) (env : Env) (req : Request) :
  preserves R (preflight cfg env req).
Proof.
  unfold preflight. apply preserves_bind.
  { unfold call_urlparse.
    destruct (urlparse_scheme env (request_url req));
      [apply preserves_ret | apply preserves_throw]. }
  intros scheme.
  destruct (negb (url_check cfg (request_url req) scheme)); [apply preserves_abort |].
  apply preserves_bind; [apply preserves_save_cookies |]. intros ck.
  apply preserves_bind; [apply preserves_resolve |]. intros r.
  destruct (too_long cfg (first_entry r)); [apply preserves_abort |].
  apply preserves_bind; [apply preserves_pick |]. intros [chosen |];
    [| apply preserves_abort].
  destruct (url chosen) as [media_url |]; [| apply preserves_abort].
  destruct (media_url =? "")%string; [apply preserves_abort |].
  destruct (too_large cfg chosen); [apply preserves_abort | apply preserves_ret].
Qed.
End Preserved.

Lemma quiet_step (e : event) (w w' : World) :
  trace w' = (trace w ++ [e])%list -> after_request w' = after_request w ->
  is_get e = false -> quiet w w'.
Proof.
  intros Ht Ha He. split; [| exact Ha]. rewrite Ht.
  rewrite List.filter_app. simpl. rewrite He. apply app_nil_r.
Qed.

Lemma quiet_trans (w1 w2 w3 : World) : quiet w1 w2 -> quiet w2 w3 -> quiet w1 w3.
Proof. intros [H1 H1'] [H2 H2']. split; congruence. Qed.

Lemma preflight_quiet (cfg : Config) (env : Env) (req : Request) :
  preserves quiet (preflight cfg env req).
Proof.
  apply preserves_preflight.
  - intros w. split; reflexivity.
  - exact quiet_trans.
  - intros w r w' Heq. injection Heq as _ <-.
    apply (quiet_step (EvMkTemp (fresh (dom (files w))))); reflexivity.
  - intros p data w r w' Heq. injection Heq as _ <-.
    apply (quiet_step (EvSave p data)); reflexivity.
  - intros p w r w' Heq. unfold unlink in Heq.
    destruct (files w !! p); injection Heq as _ <-.
    + apply (quiet_step (EvUnlink p)); reflexivity.
    + apply (quiet_step (EvUnlinkMissing p)); reflexivity.
  - intros env' u ck w r w' Heq. unfold call_extract_info in Heq.
    destruct (extract_info env' u ck); injection Heq as _ <-;
      apply (quiet_step (EvExtract u)); reflexivity.
Qed.

(** *** Running a sequence *)

Lemma bind_ok {A B : Type} (m : M A) (f : A -> M B) (w w1 : World) (a : A) :
  m w = (Ok a, w1) -> (m ≫= f) w = f a w1.
Proof. intros Hm. unfold mbind, M_bind. rewrite Hm. reflexivity. Qed.

Lemma bind_raise {A B : Type} (m : M A) (f : A -> M B) (w w1 : World) (e : exn) :
  m w = (Raise e, w1) -> (m ≫= f) w = (Raise e, w1).
Proof. intros Hm. unfold mbind, M_bind. rewrite Hm. reflexivity. Qed.

(** *** The steps before the duration check *)

(** An accepted URL: [urlparse] returned and the test let it through. *)
Lemma url_accepted_run (cfg : Config) (env : Env) (req : Request) (w : World) :
  url_accepted cfg env req = true ->
  exists scheme,
    urlparse_scheme env (request_url req) = Ok scheme /\
    url_check cfg (request_url req) scheme = true /\
    call_urlparse env (request_url req) w = (Ok scheme, w).
Proof.
  unfold url_accepted, call_urlparse.
  destruct (urlparse_scheme env (request_url req)) as [scheme | e]; [| discriminate].
  intros Hcheck. exists scheme. repeat split. exact Hcheck.
Qed.

Lemma save_cookies_run (req : Request) (w : World) :
  exists w1, save_cookies req w = (Ok (cookie_path req w), w1) /\
             forall p, cookie_path req w = Some p -> is_Some (files w1 !! p).
Proof.
  unfold save_cookies, cookie_path.
  destruct (file_cookies req) as [up |]; [| exists w; split; [reflexivity | discriminate]].
  destruct (negb _); [| exists w; split; [reflexivity | discriminate]].
  eexists. split; [reflexivity |].
  intros p Hp. injection Hp as <-. simpl. rewrite lookup_insert_eq. eexists. reflexivity.
Qed.

Lemma unlink_if_run (ck : option N) (w : World) :
  (forall p, ck = Some p -> is_Some (files w !! p)) ->
  exists w', unlink_if ck w = (Ok tt, w').
Proof.
  intros Hfile. destruct ck as [p |]; [| exists w; reflexivity].
  destruct (Hfile p eq_refl) as [d Hd]. simpl. unfold unlink. rewrite Hd.
  eexists. reflexivity.
Qed.

Lemma resolve_run (env : Env) (u : string) (ck : option N) (r : Resolved) (w : World) :
  extract_info env u ck = Ok r ->
  (forall p, ck = Some p -> is_Some (files w !! p)) ->
  exists w', resolve env u ck w = (Ok r, w').
Proof.
  intros Hr Hfile. unfold resolve, mbind, M_bind, try_except, call_extract_info.
  rewrite Hr.
  destruct (unlink_if_run ck (log (EvExtract u) w)) as [w' Hw']; [exact Hfile |].
  rewrite Hw'. eexists. reflexivity.
Qed.

Lemma too_long_true (cfg : Config) (info : Info) (d : Q) :
  0 <= MAX_DURATION_SEC cfg -> duration info = Some d ->
  (inject_Z (MAX_DURATION_SEC cfg) < d)%Q -> too_long cfg info = true.
Proof.
  intros Hmax Hd Hlt. unfold too_long. rewrite Hd. simpl.
  assert (Hpos : (0 < d)%Q).
  { eapply Qle_lt_trans; [| exact Hlt].
    change 0%Q with (inject_Z 0). rewrite <- Zle_Qle. exact Hmax. }
  assert (Hnz : Qeq_bool d 0 = false).
  { destruct (Qeq_bool d 0) eqn:Hq; [| reflexivity].
    apply Qeq_bool_iff in Hq. rewrite Hq in Hpos. exfalso. exact (Qlt_irrefl _ Hpos). }
  rewrite Hnz. simpl. rewrite Hnz. simpl.
  unfold Qlt_bool. apply negb_true_iff.
  destruct (Qle_bool d (inject_Z (MAX_DURATION_SEC cfg))) eqn:Hle; [| reflexivity].
  apply Qle_bool_iff in Hle. exfalso. exact (Qlt_not_le _ _ Hlt Hle).
Qed.

(** C6: when the URL is accepted, the resolver returns metadata and the
    duration it reports is over the maximum, the handler answers 413 with
    the message for a video that is too long, and the request for the media
    is never sent: the log holds no fetch that was not there before. *)
Theorem duration_exceeded_before_fetch
    (cfg : Config) (env : Env) (req : Request) (w : World) (r : Resolved) (d : Q) :
  0 <= MAX_DURATION_SEC cfg ->
  url_accepted cfg env req = true ->
  extract_info env (request_url req) (cookie_path req w) = Ok r ->
  duration (first_entry r) = Some d ->
  (inject_Z (MAX_DURATION_SEC cfg) < d)%Q ->
  fst (handle_request cfg env req w) = ErrorResponse 413 VideoTooLong /\
  List.filter is_get (trace (snd (handle_request cfg env req w)))
  = List.filter is_get (trace w).
Proof.
  intros Hmax Hurl Hres Hd Hlt.
  assert (Hpre : exists w', preflight cfg env req (begin_request w)
                            = (Raise (HTTPException 413 VideoTooLong), w')).
  { unfold preflight.
    destruct (url_accepted_run cfg env req (begin_request w) Hurl)
      as (scheme & _ & Hcheck & Hparse).
    rewrite (bind_ok _ _ _ _ _ Hparse), Hcheck. cbn [negb].
    destruct (save_cookies_run req (begin_request w)) as [w1 [Hsave Hfile]].
    rewrite (bind_ok _ _ _ _ _ Hsave).
    destruct (resolve_run env _ _ r w1 Hres Hfile) as [w2 Hw2].
    change (cookie_path req (begin_request w)) with (cookie_path req w).
    rewrite (bind_ok _ _ _ _ _ Hw2), (too_long_true _ _ _ Hmax Hd Hlt).
    eexists. reflexivity. }
  destruct Hpre as [w' Hpre].
  destruct (preflight_quiet cfg env req _ _ _ Hpre) as [Hget Hafter].
  unfold handle_request, download. rewrite (bind_raise _ _ _ _ _ Hpre).
  simpl in Hafter. rewrite Hafter. simpl. split; [reflexivity | exact Hget].
Qed.

Lemma duration_exceeded_before_fetch_witness :
  0 <= MAX_DURATION_SEC app_config /\
  url_accepted app_config
    (Samples.env_of (Samples.info_of (700 # 1) [Samples.mp4_480]) ConnectionFailed)
    Samples.request = true /\
  (inject_Z (MAX_DURATION_SEC app_config) < 700 # 1)%Q /\
  fst (handle_request app_config
         (Samples.env_of (Samples.info_of (700 # 1) [Samples.mp4_480]) ConnectionFailed)
         Samples.request empty_world)
  = ErrorResponse 413 VideoTooLong /\
  List.filter is_get
    (trace (snd (handle_request app_config
                   (Samples.env_of (Samples.info_of (700 # 1) [Samples.mp4_480])
                      ConnectionFailed)
                   Samples.request empty_world)))
  = List.filter is_get (trace empty_world).
Proof.
  split; [vm_compute; discriminate |]. split; [reflexivity |].
  split; [reflexivity |].
  apply (duration_exceeded_before_fetch app_config
           (Samples.env_of (Samples.info_of (700 # 1) [Samples.mp4_480]) ConnectionFailed)
           Samples.request empty_world
           {| top := Samples.info_of (700 # 1) [Samples.mp4_480]; entries := None |}
           (700 # 1)%Q).
  - vm_compute. discriminate.
  - reflexivity.
  - reflexivity.
  - reflexivity.
  - reflexivity.
Defined.

(** *** The fetch *)

Lemma fetch_refused (env : Env) (u : string) (w : World) :
  refused (requests_get env u) ->
  fetch env u w = (Raise (HTTPException 504 ErrorFetching), log (EvGet u) w).
Proof.
  intros Href. unfold fetch, try_except, mbind, M_bind, call_requests_get.
  destruct (requests_get env u) as [e | status_code body];
    [simpl in Href; subst e; reflexivity |].
  simpl in Href. unfold raise_for_status.
  replace ((400 <=? status_code) && (status_code <? 600)) with true; [reflexivity |].
  symmetry. apply andb_true_iff. split; [apply Z.leb_le | apply Z.ltb_lt]; lia.
Qed.

(** A fetch that raises anything else passes the [except] clause by. *)
Lemma fetch_raised (env : Env) (u : string) (w : World) (e : exn) :
  requests_get env u = GetRaised e -> e <> RequestException ->
  fetch env u w = (Raise e, log (EvGet u) w).
Proof.
  intros Hget Hne. unfold fetch, try_except, mbind, M_bind, call_requests_get.
  rewrite Hget. destruct e; try reflexivity. congruence.
Qed.

Lemma fetch_accepted (env : Env) (u : string) (w : World) (status_code : Z) (body : stream) :
  requests_get env u = HttpResponse status_code body ->
  ~ (400 <= status_code < 600) ->
  fetch env u w = (Ok body, log (EvGet u) w).
Proof.
  intros Hget Hst. unfold fetch, try_except, mbind, M_bind, call_requests_get.
  rewrite Hget. unfold raise_for_status.
  replace ((400 <=? status_code) && (status_code <? 600)) with false; [reflexivity |].
  symmetry. apply andb_false_iff.
  destruct (Z.leb_spec 400 status_code); [right; apply Z.ltb_ge; lia | left; reflexivity].
Qed.

(** C7, as amended: for a request that passed the checks before the fetch,
    when the fetch of the chosen URL raises a [RequestException] or returns
    a status from 400 to 599, the handler answers 504 and nothing happens
    after the request was sent: no temporary file is created and no file
    changes. *)
Theorem fetch_refused_gateway_error
    (cfg : Config) (env : Env) (req : Request) (w w1 : World)
    (info : Info) (u : string) :
  preflight cfg env req (begin_request w) = (Ok (info, u), w1) ->
  refused (requests_get env u) ->
  handle_request cfg env req w
  = (ErrorResponse 504 ErrorFetching, log (EvGet u) w1).
Proof.
  intros Hpre Href.
  destruct (preflight_quiet cfg env req _ _ _ Hpre) as [_ Hafter].
  unfold handle_request, download.
  rewrite (bind_ok _ _ _ _ _ Hpre). cbv beta iota.
  rewrite (bind_raise _ _ _ _ _ (fetch_refused env u w1 Href)).
  simpl after_request. rewrite Hafter. reflexivity.
Qed.

Lemma fetch_refused_gateway_error_witness :
  refused (requests_get
             (Samples.env_of (Samples.info_of (60 # 1) [Samples.mp4_480])
                (HttpResponse 404 SEnd))
             "http://media/480.mp4") /\
  fst (handle_request app_config
         (Samples.env_of (Samples.info_of (60 # 1) [Samples.mp4_480])
            (HttpResponse 404 SEnd))
         Samples.request empty_world)
  = ErrorResponse 504 ErrorFetching.
Proof.
  split; [simpl; lia |].
  destruct (preflight app_config
              (Samples.env_of (Samples.info_of (60 # 1) [Samples.mp4_480])
                 (HttpResponse 404 SEnd))
              Samples.request (begin_request empty_world))
    as [[[info u] | e] w1] eqn:Hpre.
  - rewrite (fetch_refused_gateway_error _ _ _ _ _ _ _ Hpre); [reflexivity |].
    simpl. lia.
  - vm_compute in Hpre. discriminate Hpre.
Defined.

(** A fetch that raises another exception is not caught by
    [except requests.RequestException]: the request ends with that
    exception, and no temporary file is created either. *)
Lemma fetch_raised_propagates
    (cfg : Config) (env : Env) (req : Request) (w w1 : World)
    (info : Info) (u : string) (e : exn) :
  preflight cfg env req (begin_request w) = (Ok (info, u), w1) ->
  requests_get env u = GetRaised e -> e <> RequestException ->
  handle_request cfg env req w
  = (match e with
     | HTTPException status msg => ErrorResponse status msg
     | _ => InternalServerError e
     end, log (EvGet u) w1).
Proof.
  intros Hpre Hget Hne.
  destruct (preflight_quiet cfg env req _ _ _ Hpre) as [_ Hafter].
  unfold handle_request, download.
  rewrite (bind_ok _ _ _ _ _ Hpre). cbv beta iota.
  rewrite (bind_raise _ _ _ _ _ (fetch_raised env u w1 e Hget Hne)).
  simpl after_request. rewrite Hafter. reflexivity.
Qed.

Example fetch_raising_other_is_500 :
  fst (handle_request app_config
         (Samples.env_of (Samples.info_of (60 # 1) [Samples.mp4_480])
            (GetRaised OtherException))
         Samples.request empty_world)
  = InternalServerError OtherException.
Proof. vm_compute. reflexivity. Qed.

(** C7 as the specification states it fails: a response with status 300 is
    outside 200..299, [raise_for_status] lets it pass, and the handler
    streams its body to a temporary file and serves it. *)
Lemma gateway_error_on_non_2xx_fails :
  ~ gateway_error_on_non_2xx app_config
      (Samples.env_of (Samples.info_of (60 # 1) [Samples.mp4_480])
         (HttpResponse 300 (SChunk Samples.two_bytes SEnd)))
      Samples.request empty_world.
Proof.
  intros Hclaim.
  destruct (preflight app_config
              (Samples.env_of (Samples.info_of (60 # 1) [Samples.mp4_480])
                 (HttpResponse 300 (SChunk Samples.two_bytes SEnd)))
              Samples.request (begin_request empty_world))
    as [[[info u] | e] w1] eqn:Hpre.
  - specialize (Hclaim info u w1 Hpre). apply (f_equal fst) in Hclaim.
    + vm_compute in Hclaim. discriminate Hclaim.
    + simpl. lia.
  - vm_compute in Hpre. discriminate Hpre.
Qed.

Example status_300_is_served :
  fst (handle_request app_config
         (Samples.env_of (Samples.info_of (60 # 1) [Samples.mp4_480])
            (HttpResponse 300 (SChunk Samples.two_bytes SEnd)))
         Samples.request empty_world)
  = Attachment "a_clip.mp4" "video/mp4" Samples.two_bytes.
Proof. vm_compute. reflexivity. Qed.

(** *** The relay loop *)

Lemma len_nonneg (b : bytes) : 0 <= len b.
Proof. unfold len. lia. Qed.

Lemma len_app (a b : bytes) : len (a ++ b)%list = len a + len b.
Proof. unfold len. rewrite length_app. lia. Qed.

Lemma bytes_written_nonneg (p : N) (evs : list event) : 0 <= bytes_written p evs.
Proof.
  induction evs as [| e evs IH]; simpl; [lia |].
  destruct e; try exact IH.
  destruct (N.eqb p p0); [pose proof (len_nonneg chunk) |]; lia.
Qed.

Lemma bytes_written_app (p : N) (evs1 evs2 : list event) :
  bytes_written p (evs1 ++ evs2)%list = bytes_written p evs1 + bytes_written p evs2.
Proof.
  induction evs1 as [| e evs1 IH]; simpl; [reflexivity |].
  destruct e; try exact IH. rewrite IH. lia.
Qed.

Lemma bytes_written_write (p : N) (chunk : bytes) (evs : list event) :
  bytes_written p (EvWrite p chunk :: evs) = len chunk + bytes_written p evs.
Proof. simpl. rewrite N.eqb_refl. reflexivity. Qed.

Lemma unlink_count_write (p q : N) (chunk : bytes) (evs : list event) :
  unlink_count p (EvWrite q chunk :: evs) = unlink_count p evs.
Proof. reflexivity. Qed.

Lemma total_len_cons (chunk : bytes) (chunks : list bytes) :
  total_len (chunk :: chunks) = len chunk + total_len chunks.
Proof. reflexivity. Qed.

Lemma total_len_nonneg (chunks : list bytes) : 0 <= total_len chunks.
Proof.
  induction chunks as [| c chunks IH]; simpl; [lia |].
  pose proof (len_nonneg c). lia.
Qed.

Lemma relay_loop_run (cfg : Config) (p : N) (body : stream) :
  forall (written : Z) (w : World) (d : bytes),
    written <= MAX_BYTES cfg -> files w !! p = Some d -> len d = written ->
    exists r w' evs,
      relay_loop cfg p written body w = (r, w') /\
      trace w' = (trace w ++ evs)%list /\
      after_request w' = after_request w /\
      written + bytes_written p evs <= MAX_BYTES cfg /\
      loop_outcome p written r w' evs.
Proof.
  induction body as [| e | chunk rest IH]; intros written w d Hle Hfile Hlen.
  - exists (Ok tt), w, []. simpl. rewrite app_nil_r.
    repeat split; try lia. exists d. split; [exact Hfile | lia].
  - exists (Raise e), w, []. simpl. rewrite app_nil_r.
    repeat split; try lia. right. split; [reflexivity |].
    exists d. split; [exact Hfile | lia].
  - destruct chunk as [| b bs]; [exact (IH written w d Hle Hfile Hlen) |].
    set (chunk := b :: bs) in *.
    change (relay_loop cfg p written (SChunk chunk rest) w)
      with ((if MAX_BYTES cfg <? written + len chunk
             then unlink p;; abort 413 ExceededLimit
             else write p chunk;; relay_loop cfg p (written + len chunk) rest) w).
    destruct (Z.ltb_spec (MAX_BYTES cfg) (written + len chunk)) as [Hover | Hfits].
    + exists (Raise (HTTPException 413 ExceededLimit)),
        (log (EvUnlink p) (set_files (delete p (files w)) w)), [EvUnlink p].
      split.
      { unfold mbind, M_bind, unlink. cbv beta iota. rewrite Hfile. reflexivity. }
      simpl. rewrite N.eqb_refl. repeat split; try lia.
      left. rewrite lookup_delete_eq. repeat split.
    + set (w1 := log (EvWrite p chunk)
                   (set_files (alter (fun d => (d ++ chunk)%list) p (files w)) w)).
      assert (Hfile1 : files w1 !! p = Some (d ++ chunk)%list).
      { simpl. rewrite lookup_alter_eq, Hfile. reflexivity. }
      destruct (IH (written + len chunk) w1 (d ++ chunk)%list Hfits Hfile1)
        as (r & w' & evs & Hrun & Htrace & Hafter & Hsum & Hout).
      { rewrite len_app. lia. }
      exists r, w', (EvWrite p chunk :: evs).
      split.
      { unfold mbind, M_bind, write. cbv beta iota. fold w1. exact Hrun. }
      split; [rewrite Htrace; simpl; rewrite <- app_assoc; reflexivity |].
      split; [rewrite Hafter; reflexivity |].
      unfold loop_outcome in *.
      rewrite !bytes_written_write, !unlink_count_write.
      split; [lia |].
      destruct r as [[] | e].
      * destruct Hout as [Hcount [d' [Hd' Hlen']]].
        split; [exact Hcount |]. exists d'. split; [exact Hd' | lia].
      * destruct Hout as [Hgone | [Hcount [d' [Hd' Hlen']]]]; [left; exact Hgone |].
        right. split; [exact Hcount |]. exists d'. split; [exact Hd' | lia].
Qed.

(** Once the chunks pass the ceiling the loop stops in the ceiling branch,
    with the file removed. *)
Lemma relay_loop_overflow (cfg : Config) (p : N) (rest : stream) (chunks : list bytes) :
  forall (written : Z) (w : World) (d : bytes),
    written <= MAX_BYTES cfg -> files w !! p = Some d ->
    MAX_BYTES cfg < written + total_len chunks ->
    exists w',
      relay_loop cfg p written (prepend chunks rest) w
      = (Raise (HTTPException 413 ExceededLimit), w') /\
      files w' !! p = None.
Proof.
  induction chunks as [| chunk chunks IH]; intros written w d Hle Hfile Hover.
  - simpl in Hover. lia.
  - destruct chunk as [| b bs].
    + apply (IH written w d Hle Hfile). rewrite total_len_cons in Hover.
      change (len []) with 0 in Hover. lia.
    + set (chunk := b :: bs) in *.
      change (relay_loop cfg p written (prepend (chunk :: chunks) rest) w)
        with ((if MAX_BYTES cfg <? written + len chunk
               then unlink p;; abort 413 ExceededLimit
               else write p chunk;;
                    relay_loop cfg p (written + len chunk) (prepend chunks rest)) w).
      destruct (Z.ltb_spec (MAX_BYTES cfg) (written + len chunk)) as [Hnow | Hfits].
      * eexists. split.
        { unfold mbind, M_bind, unlink. cbv beta iota. rewrite Hfile. reflexivity. }
        simpl. apply lookup_delete_eq.
      * set (w1 := log (EvWrite p chunk)
                     (set_files (alter (fun d => (d ++ chunk)%list) p (files w)) w)).
        assert (Hfile1 : files w1 !! p = Some (d ++ chunk)%list).
        { simpl. rewrite lookup_alter_eq, Hfile. reflexivity. }
        destruct (IH (written + len chunk) w1 _ Hfits Hfile1) as [w' [Hrun Hgone]].
        { rewrite total_len_cons in Hover. lia. }
        exists w'. split; [| exact Hgone].
        unfold mbind, M_bind, write. cbv beta iota. fold w1. exact Hrun.
Qed.

(** *** The relay *)

Lemma bytes_written_prefix (p : N) (pre post : list event) :
  bytes_written p pre <= bytes_written p (pre ++ post)%list.
Proof.
  rewrite bytes_written_app. pose proof (bytes_written_nonneg p post). lia.
Qed.

Lemma unlink_count_app (p : N) (evs1 evs2 : list event) :
  unlink_count p (evs1 ++ evs2)%list = (unlink_count p evs1 + unlink_count p evs2)%nat.
Proof.
  induction evs1 as [| e evs1 IH]; simpl; [reflexivity |].
  destruct e; try exact IH. rewrite IH. lia.
Qed.

(** The relay from the creation of the file to the end of the [except]
    block: it returns the path of a file that holds what was written, or it
    raises and the file is gone, removed exactly once. *)
Lemma stream_to_temp_run (cfg : Config) (body : stream) (w : World) :
  0 <= MAX_BYTES cfg ->
  exists r w' evs,
    stream_to_temp cfg body w = (r, w') /\
    trace w' = (trace w ++ evs)%list /\
    after_request w' = after_request w /\
    bytes_written (fresh (dom (files w))) evs <= MAX_BYTES cfg /\
    match r with
    | Ok q =>
        q = fresh (dom (files w)) /\
        unlink_count q evs = 0%nat /\
        exists d, files w' !! q = Some d /\ len d = bytes_written q evs
    | Raise e =>
        files w' !! fresh (dom (files w)) = None /\
        unlink_count (fresh (dom (files w))) evs = 1%nat
    end.
Proof.
  intros Hmax. set (p := fresh (dom (files w))).
  set (w0 := log (EvMkTemp p) (set_files (<[p := []]> (files w)) w)).
  assert (Hfile0 : files w0 !! p = Some []) by (simpl; apply lookup_insert_eq).
  destruct (relay_loop_run cfg p body 0 w0 [] Hmax Hfile0 eq_refl)
    as (r & w1 & evs & Hrun & Htrace & Hafter & Hsum & Hout).
  assert (Hstart : stream_to_temp cfg body w
                   = (try_except (relay_loop cfg p 0 body)
                        (fun _ => Some (unlink p;; abort 500 ErrorDuringDownload));;
                      mret p) w0) by reflexivity.
  rewrite Hstart. unfold mbind at 1, M_bind at 1, try_except. rewrite Hrun.
  unfold loop_outcome in Hout.
  destruct r as [[] | e].
  - destruct Hout as [Hcount [d [Hd Hlen]]].
    exists (Ok p), w1, (EvMkTemp p :: evs).
    split; [reflexivity |].
    split; [rewrite Htrace; simpl; rewrite <- app_assoc; reflexivity |].
    split; [exact Hafter |].
    split; [simpl; lia |].
    split; [reflexivity |]. split; [exact Hcount |].
    exists d. split; [exact Hd | simpl; lia].
  - destruct Hout as [[Hgone [Hcount _]] | [Hcount [d [Hd Hlen]]]].
    + exists (Raise FileNotFoundError), (log (EvUnlinkMissing p) w1),
        (EvMkTemp p :: evs ++ [EvUnlinkMissing p])%list.
      split.
      { unfold mbind, M_bind, unlink. cbv beta iota. rewrite Hgone. reflexivity. }
      split; [simpl; rewrite Htrace; simpl; rewrite <- !app_assoc; reflexivity |].
      split; [exact Hafter |].
      split; [simpl; rewrite bytes_written_app; simpl; lia |].
      split; [exact Hgone |].
      simpl. rewrite unlink_count_app. simpl. lia.
    + exists (Raise (HTTPException 500 ErrorDuringDownload)),
        (log (EvUnlink p) (set_files (delete p (files w1)) w1)),
        (EvMkTemp p :: evs ++ [EvUnlink p])%list.
      split.
      { unfold mbind, M_bind, unlink. cbv beta iota. rewrite Hd. reflexivity. }
      split; [simpl; rewrite Htrace; simpl; rewrite <- !app_assoc; reflexivity |].
      split; [exact Hafter |].
      split; [simpl; rewrite bytes_written_app; simpl; lia |].
      split; [simpl; apply lookup_delete_eq |].
      simpl. rewrite unlink_count_app. simpl. rewrite N.eqb_refl. lia.
Qed.

(** Past the ceiling, the [abort(413)] of the loop is caught by
    [except Exception], whose [os.unlink] finds the file already removed. *)
Lemma stream_to_temp_overflow
    (cfg : Config) (chunks : list bytes) (rest : stream) (w : World) :
  0 <= MAX_BYTES cfg -> MAX_BYTES cfg < total_len chunks ->
  exists w', stream_to_temp cfg (prepend chunks rest) w = (Raise FileNotFoundError, w').
Proof.
  intros Hmax Hover. set (p := fresh (dom (files w))).
  set (w0 := log (EvMkTemp p) (set_files (<[p := []]> (files w)) w)).
  assert (Hfile0 : files w0 !! p = Some []) by (simpl; apply lookup_insert_eq).
  destruct (relay_loop_overflow cfg p rest chunks 0 w0 [] Hmax Hfile0)
    as [w1 [Hrun Hgone]]; [lia |].
  assert (Hstart : stream_to_temp cfg (prepend chunks rest) w
                   = (try_except (relay_loop cfg p 0 (prepend chunks rest))
                        (fun _ => Some (unlink p;; abort 500 ErrorDuringDownload));;
                      mret p) w0) by reflexivity.
  rewrite Hstart. unfold mbind at 1, M_bind at 1, try_except. rewrite Hrun.
  unfold mbind, M_bind, unlink. cbv beta iota. rewrite Hgone.
  eexists. reflexivity.
Qed.

(** C3: for every body and every ceiling, what the relay has written to its
    temporary file is at most the ceiling at every point of its run and in
    the file it leaves; when the chunks of the body add up to more than the
    ceiling, the file is removed, once, and no path is returned. *)
Theorem relay_never_exceeds_ceiling (cfg : Config) (body : stream) (w : World) :
  0 <= MAX_BYTES cfg ->
  exists evs,
    trace (snd (stream_to_temp cfg body w)) = (trace w ++ evs)%list /\
    (forall pre post, evs = (pre ++ post)%list ->
       bytes_written (fresh (dom (files w))) pre <= MAX_BYTES cfg) /\
    (forall data,
       files (snd (stream_to_temp cfg body w)) !! fresh (dom (files w)) = Some data ->
       len data <= MAX_BYTES cfg) /\
    (forall chunks rest,
       body = prepend chunks rest -> MAX_BYTES cfg < total_len chunks ->
       files (snd (stream_to_temp cfg body w)) !! fresh (dom (files w)) = None /\
       unlink_count (fresh (dom (files w))) evs = 1%nat /\
       forall q, fst (stream_to_temp cfg body w) <> Ok q).
Proof.
  intros Hmax.
  destruct (stream_to_temp_run cfg body w Hmax)
    as (r & w' & evs & Hrun & Htrace & _ & Hsum & Hout).
  exists evs. rewrite Hrun. simpl fst. simpl snd.
  split; [exact Htrace |]. split; [| split].
  - intros pre post ->. pose proof (bytes_written_prefix (fresh (dom (files w))) pre post).
    lia.
  - intros data Hdata. destruct r as [q | e].
    + destruct Hout as [-> [_ [d [Hd Hlen]]]]. rewrite Hd in Hdata.
      injection Hdata as <-. lia.
    + destruct Hout as [Hgone _]. rewrite Hgone in Hdata. discriminate Hdata.
  - intros chunks rest -> Hover.
    destruct (stream_to_temp_overflow cfg chunks rest w Hmax Hover) as [w'' Hraise].
    rewrite Hraise in Hrun. injection Hrun as <- <-.
    destruct Hout as [Hgone Hcount].
    split; [exact Hgone |]. split; [exact Hcount |]. intros q. discriminate.
Qed.

Lemma relay_never_exceeds_ceiling_witness :
  0 <= MAX_BYTES Samples.small_config /\
  exists evs,
    trace (snd (stream_to_temp Samples.small_config
                  (prepend [Samples.two_bytes; Samples.two_bytes] SEnd) empty_world))
    = (trace empty_world ++ evs)%list /\
    (forall pre post, evs = (pre ++ post)%list ->
       bytes_written (fresh (dom (files empty_world))) pre
       <= MAX_BYTES Samples.small_config) /\
    (forall data,
       files (snd (stream_to_temp Samples.small_config
                     (prepend [Samples.two_bytes; Samples.two_bytes] SEnd) empty_world))
       !! fresh (dom (files empty_world)) = Some data ->
       len data <= MAX_BYTES Samples.small_config) /\
    (forall chunks rest,
       prepend [Samples.two_bytes; Samples.two_bytes] SEnd = prepend chunks rest ->
       MAX_BYTES Samples.small_config < total_len chunks ->
       files (snd (stream_to_temp Samples.small_config
                     (prepend [Samples.two_bytes; Samples.two_bytes] SEnd) empty_world))
       !! fresh (dom (files empty_world)) = None /\
       unlink_count (fresh (dom (files empty_world))) evs = 1%nat /\
       forall q, fst (stream_to_temp Samples.small_config
                        (prepend [Samples.two_bytes; Samples.two_bytes] SEnd)
                        empty_world) <> Ok q).
Proof.
  split.
  - vm_compute. discriminate.
  - apply (relay_never_exceeds_ceiling Samples.small_config
             (prepend [Samples.two_bytes; Samples.two_bytes] SEnd) empty_world).
    vm_compute. discriminate.
Defined.

(** The scenario of the specification, scaled down: with a ceiling of three
    bytes and two chunks of two bytes, the relay stops at the second chunk
    with one chunk written and the file removed. *)
Example relay_scenario_overflow :
  let '(r, w') := stream_to_temp Samples.small_config
                    (prepend [Samples.two_bytes; Samples.two_bytes] SEnd) empty_world in
  r = Raise FileNotFoundError /\
  trace w' = [EvMkTemp 0%N; EvWrite 0%N Samples.two_bytes; EvUnlink 0%N;
              EvUnlinkMissing 0%N] /\
  files w' !! 0%N = None.
Proof. vm_compute. repeat split. Qed.

(** *** The ceiling inside the handler *)

(** C2, what the code does: for a request that passed the checks before the
    fetch and whose response was accepted, when the chunks of the body add
    up to more than the ceiling the handler answers with the 500 of an
    unhandled [FileNotFoundError], not with 413. *)
Theorem ceiling_exceeded_answers_500
    (cfg : Config) (env : Env) (req : Request) (w w1 : World) (info : Info)
    (u : string) (status_code : Z) (chunks : list bytes) (rest : stream) :
  0 <= MAX_BYTES cfg ->
  preflight cfg env req (begin_request w) = (Ok (info, u), w1) ->
  requests_get env u = HttpResponse status_code (prepend chunks rest) ->
  ~ (400 <= status_code < 600) ->
  MAX_BYTES cfg < total_len chunks ->
  fst (handle_request cfg env req w) = InternalServerError FileNotFoundError /\
  status_of (fst (handle_request cfg env req w)) = 500.
Proof.
  intros Hmax Hpre Hget Hst Hover.
  assert (Hresp : fst (handle_request cfg env req w)
                  = InternalServerError FileNotFoundError).
  { unfold handle_request, download.
    rewrite (bind_ok _ _ _ _ _ Hpre). cbv beta iota.
    rewrite (bind_ok _ _ _ _ _ (fetch_accepted env u w1 _ _ Hget Hst)).
    destruct (stream_to_temp_overflow cfg chunks rest (log (EvGet u) w1) Hmax Hover)
      as [w' Hraise].
    rewrite (bind_raise _ _ _ _ _ Hraise). reflexivity. }
  rewrite Hresp. split; reflexivity.
Qed.

Lemma preflight_sample (r : fetch_result) :
  exists w1,
    preflight app_config
      (Samples.env_of (Samples.info_of (60 # 1) [Samples.mp4_480]) r)
      Samples.request (begin_request empty_world)
    = (Ok (Samples.info_of (60 # 1) [Samples.mp4_480], "http://media/480.mp4"), w1).
Proof. eexists. vm_compute. reflexivity. Qed.

Lemma total_len_repeat (chunk : bytes) (n : nat) :
  total_len (repeat chunk n) = Z.of_nat n * len chunk.
Proof.
  induction n as [| n IH]; [reflexivity |].
  change (repeat chunk (S n)) with (chunk :: repeat chunk n).
  rewrite total_len_cons, IH. lia.
Qed.

Lemma len_mebibyte : len Samples.mebibyte = 1024 * 1024.
Proof.
  unfold len, Samples.mebibyte. rewrite repeat_length. apply Z2Nat.id. lia.
Qed.

(** C2 at an input the deployed configuration can meet: a body of 301
    chunks of one mebibyte against the ceiling of 300 mebibytes. *)
Lemma ceiling_exceeded_answers_500_witness :
  0 <= MAX_BYTES app_config /\
  MAX_BYTES app_config < total_len (repeat Samples.mebibyte 301) /\
  fst (handle_request app_config
         (Samples.env_of (Samples.info_of (60 # 1) [Samples.mp4_480])
            (HttpResponse 200 (prepend (repeat Samples.mebibyte 301) SEnd)))
         Samples.request empty_world)
  = InternalServerError FileNotFoundError.
Proof.
  assert (Hover : MAX_BYTES app_config < total_len (repeat Samples.mebibyte 301)).
  { rewrite total_len_repeat, len_mebibyte. reflexivity. }
  split; [vm_compute; discriminate |]. split; [exact Hover |].
  destruct (preflight_sample
              (HttpResponse 200 (prepend (repeat Samples.mebibyte 301) SEnd)))
    as [w1 Hpre].
  refine (proj1 (ceiling_exceeded_answers_500 app_config _ _ _ w1 _ _ 200
                   (repeat Samples.mebibyte 301) SEnd _ Hpre _ _ Hover)).
  - vm_compute. discriminate.
  - reflexivity.
  - lia.
Defined.

(** *** The path without a failure *)

Lemma relay_loop_complete (cfg : Config) (p : N) (chunks : list bytes) :
  forall (written : Z) (w : World) (d : bytes),
    files w !! p = Some d -> written + total_len chunks <= MAX_BYTES cfg ->
    exists w',
      relay_loop cfg p written (prepend chunks SEnd) w = (Ok tt, w') /\
      files w' !! p = Some (d ++ concat chunks)%list /\
      after_request w' = after_request w.
Proof.
  induction chunks as [| chunk chunks IH]; intros written w d Hfile Hfits.
  - exists w. simpl. rewrite app_nil_r. repeat split. exact Hfile.
  - rewrite total_len_cons in Hfits. pose proof (total_len_nonneg chunks) as Hnn.
    destruct chunk as [| b bs].
    + change (len []) with 0 in Hfits.
      destruct (IH written w d Hfile) as [w' Hw']; [lia |]. exists w'. exact Hw'.
    + set (chunk := b :: bs) in *.
      change (relay_loop cfg p written (prepend (chunk :: chunks) SEnd) w)
        with ((if MAX_BYTES cfg <? written + len chunk
               then unlink p;; abort 413 ExceededLimit
               else write p chunk;;
                    relay_loop cfg p (written + len chunk) (prepend chunks SEnd)) w).
      destruct (Z.ltb_spec (MAX_BYTES cfg) (written + len chunk)) as [Hnow | _]; [lia |].
      set (w1 := log (EvWrite p chunk)
                   (set_files (alter (fun d => (d ++ chunk)%list) p (files w)) w)).
      assert (Hfile1 : files w1 !! p = Some (d ++ chunk)%list).
      { simpl. rewrite lookup_alter_eq, Hfile. reflexivity. }
      destruct (IH (written + len chunk) w1 _ Hfile1) as (w' & Hrun & Hw' & Hafter);
        [lia |].
      exists w'. split; [| split].
      * unfold mbind, M_bind, write. cbv beta iota. fold w1. exact Hrun.
      * rewrite Hw'. simpl concat. rewrite <- app_assoc. reflexivity.
      * exact Hafter.
Qed.

(** X18: when the request passed the checks, the response was accepted, the
    body ends without a failure and fits under the ceiling (a total equal
    to the ceiling fits; empty chunks are skipped), the handler serves
    the chunks of the body under the sanitised title, and [_cleanup] has
    removed the temporary file when the request is over. *)
Theorem download_serves_body
    (cfg : Config) (env : Env) (req : Request) (w w1 : World) (info : Info)
    (u : string) (status_code : Z) (chunks : list bytes) :
  preflight cfg env req (begin_request w) = (Ok (info, u), w1) ->
  requests_get env u = HttpResponse status_code (prepend chunks SEnd) ->
  ~ (400 <= status_code < 600) ->
  total_len chunks <= MAX_BYTES cfg ->
  fst (handle_request cfg env req w)
  = Attachment (Filename._safe_filename (title info) "video") "video/mp4"
      (concat chunks) /\
  files (snd (handle_request cfg env req w)) !! fresh (dom (files w1)) = None.
Proof.
  intros Hpre Hget Hst Hfits.
  destruct (preflight_quiet cfg env req _ _ _ Hpre) as [_ Hafter].
  simpl in Hafter.
  set (p := fresh (dom (files w1))).
  set (w2 := log (EvMkTemp p) (set_files (<[p := []]> (files w1)) (log (EvGet u) w1))).
  assert (Hfile2 : files w2 !! p = Some []) by (simpl; apply lookup_insert_eq).
  destruct (relay_loop_complete cfg p chunks 0 w2 [] Hfile2) as (w3 & Hrun & Hfile3 & Hafter3);
    [lia |].
  assert (Hrelay : stream_to_temp cfg (prepend chunks SEnd) (log (EvGet u) w1)
                   = (Ok p, w3)).
  { change (stream_to_temp cfg (prepend chunks SEnd) (log (EvGet u) w1))
      with ((try_except (relay_loop cfg p 0 (prepend chunks SEnd))
               (fun _ => Some (unlink p;; abort 500 ErrorDuringDownload));;
             mret p) w2).
    unfold mbind, M_bind, try_except. rewrite Hrun. reflexivity. }
  unfold handle_request, download.
  rewrite (bind_ok _ _ _ _ _ Hpre). cbv beta iota.
  rewrite (bind_ok _ _ _ _ _ (fetch_accepted env u w1 _ _ Hget Hst)).
  rewrite (bind_ok _ _ _ _ _ Hrelay).
  unfold mbind, M_bind, after_this_request, send_file. cbv beta iota.
  simpl files. rewrite Hfile3. simpl after_request.
  rewrite Hafter3. simpl after_request. rewrite Hafter. simpl.
  unfold _cleanup, unlink. simpl files. rewrite Hfile3. simpl.
  split; [reflexivity | apply lookup_delete_eq].
Qed.

Example download_serves_body_sample :
  handle_request Samples.small_config
    (Samples.env_of (Samples.info_of (60 # 1) [Samples.mp4_480])
       (HttpResponse 200 (prepend [Samples.two_bytes; []; [Byte.x02]] SEnd)))
    Samples.request empty_world
  = (Attachment "a_clip.mp4" "video/mp4" [Byte.x00; Byte.x01; Byte.x02],
     {| files := ∅;
        trace := [EvMkTemp 0%N; EvSave 0%N [Byte.x23];
                  EvExtract "https://example.org/watch"; EvUnlink 0%N;
                  EvGet "http://media/480.mp4"; EvMkTemp 0%N;
                  EvWrite 0%N Samples.two_bytes; EvWrite 0%N [Byte.x02];
                  EvUnlink 0%N];
        after_request := [0%N] |}).
Proof. vm_compute. reflexivity. Qed.

End HandlerFacts.

(** * Further properties *)

(** ** Ties and caps in the format selector *)

Lemma score_le_total (a b : Z * Q) : score_le a b \/ score_le b a.
Proof.
  destruct (tuple_lt a b) eqn:Hlt.
  - left. apply tuple_lt_true. exact Hlt.
  - right. apply tuple_lt_false. exact Hlt.
Qed.

Lemma tuple_lt_iff (a b : Z * Q) : tuple_lt a b = true <-> ~ score_le b a.
Proof.
  split.
  - intros Hlt Hle. apply tuple_lt_false in Hle. congruence.
  - intros Hn. destruct (tuple_lt a b) eqn:Hlt; [reflexivity |].
    exfalso. apply Hn. apply tuple_lt_false. exact Hlt.
Qed.

Section StableFacts.
Context {A : Type} (key : A -> Z * Q).

Lemma insert_by_front (x : A) (l : list A) :
  (forall z, In z l -> score_le (key x) (key z)) -> insert_by key x l = x :: l.
Proof.
  intros Hall. destruct l as [| y l]; [reflexivity |]. simpl.
  assert (Hy : tuple_lt (key y) (key x) = false).
  { apply tuple_lt_false. apply Hall. left. reflexivity. }
  rewrite Hy. reflexivity.
Qed.

Lemma filter_insert_by (p : A -> bool) (x : A) (l : list A) :
  StronglySorted (key_le key) l ->
  List.filter p (insert_by key x l)
  = if p x then insert_by key x (List.filter p l) else List.filter p l.
Proof.
  induction 1 as [| y l Hs IH Hall]; simpl.
  - destruct (p x); reflexivity.
  - destruct (tuple_lt (key y) (key x)) eqn:Hlt; simpl.
    + rewrite IH. destruct (p y), (p x); simpl; rewrite ?Hlt; reflexivity.
    + destruct (p x) eqn:Hpx; [| reflexivity].
      destruct (p y); simpl; [rewrite Hlt; reflexivity |].
      symmetry. apply insert_by_front. intros z Hz.
      apply List.filter_In in Hz. destruct Hz as [Hz _].
      eapply score_le_trans; [apply tuple_lt_false; exact Hlt |].
      rewrite List.Forall_forall in Hall. apply Hall. exact Hz.
Qed.

(** Filtering the sorted list is sorting the filtered list. *)
Lemma filter_sorted_comm (p : A -> bool) (l : list A) :
  List.filter p (sorted key l) = sorted key (List.filter p l).
Proof.
  induction l as [| x l IH]; simpl; [reflexivity |].
  rewrite (filter_insert_by _ _ _ (sorted_sorted key l)), IH.
  destruct (p x); reflexivity.
Qed.

Lemma head_insert_by (x : A) (l : list A) :
  head (insert_by key x l)
  = match head l with
    | Some m => if tuple_lt (key m) (key x) then Some m else Some x
    | None => Some x
    end.
Proof.
  destruct l as [| y l]; simpl; [reflexivity |].
  destruct (tuple_lt (key y) (key x)); reflexivity.
Qed.

Lemma last_cons_cons (x y : A) (l : list A) : last (x :: y :: l) = last (y :: l).
Proof. reflexivity. Qed.

Lemma insert_by_cons (x : A) (l : list A) : exists y l', insert_by key x l = y :: l'.
Proof.
  destruct l as [| z l]; simpl; [eauto |].
  destruct (tuple_lt (key z) (key x)); eauto.
Qed.

Lemma last_insert_by (x : A) (l : list A) :
  StronglySorted (key_le key) l ->
  last (insert_by key x l)
  = match last l with
    | Some m => if tuple_lt (key m) (key x) then Some x else Some m
    | None => Some x
    end.
Proof.
  induction 1 as [| y ys Hs IH Hall]; [reflexivity |].
  simpl insert_by. destruct (tuple_lt (key y) (key x)) eqn:Hlt.
  - destruct (insert_by_cons x ys) as (z & l' & Hins).
    rewrite Hins, last_cons_cons, <- Hins, IH.
    destruct ys as [| y' ys']; [simpl; rewrite Hlt; reflexivity |].
    rewrite last_cons_cons. reflexivity.
  - rewrite last_cons_cons.
    destruct (last_nonempty (y :: ys)) as [m Hm]; [discriminate |].
    rewrite Hm.
    destruct (last_is_greatest key (y :: ys) m (SSorted_cons y Hs Hall) Hm) as [_ Hmax].
    assert (Hxm : score_le (key x) (key m)).
    { eapply score_le_trans; [apply tuple_lt_false; exact Hlt |].
      apply Hmax. left. reflexivity. }
    apply tuple_lt_false in Hxm. rewrite Hxm. reflexivity.
Qed.
End StableFacts.

(** The last element of the stable sort is the last of the greatest in the
    order of the input. *)
Lemma last_sorted_last_greatest (l : list Format) (c : Format) :
  last (sorted score l) = Some c -> last_greatest c l.
Proof.
  revert c. induction l as [| x l IH]; intros c Hlast; [discriminate |].
  simpl sorted in Hlast.
  rewrite (last_insert_by score x _ (sorted_sorted score l)) in Hlast.
  destruct (last (sorted score l)) as [m |] eqn:Hm.
  - destruct (last_is_greatest score _ m (sorted_sorted score l) Hm) as [_ Hmax].
    destruct (tuple_lt (score m) (score x)) eqn:Hlt; injection Hlast as <-.
    + exists [], l. split; [reflexivity |]. split; [intros f [] |].
      intros f Hf Hle. apply tuple_lt_iff in Hlt. apply Hlt.
      eapply score_le_trans; [exact Hle |]. apply Hmax. apply sorted_In. exact Hf.
    + destruct (IH m eq_refl) as (l1 & l2 & -> & Hbefore & Hbehind).
      exists (x :: l1), l2. split; [reflexivity |]. split; [| exact Hbehind].
      intros f [<- | Hf]; [apply tuple_lt_false; exact Hlt | apply Hbefore; exact Hf].
  - injection Hlast as <-.
    assert (Hnil : l = []).
    { apply (sorted_nil score). destruct (sorted score l) as [| z zs]; [reflexivity |].
      destruct (last_nonempty (z :: zs)) as [m' Hm']; [discriminate | congruence]. }
    subst l. exists [], []. split; [reflexivity |]. split; intros f [].
Qed.

(** The first element of the stable sort is the first of the least in the
    order of the input. *)
Lemma head_sorted_first_least (l : list Format) (c : Format) :
  head (sorted score l) = Some c -> first_least c l.
Proof.
  revert c. induction l as [| x l IH]; intros c Hhead; [discriminate |].
  simpl sorted in Hhead. rewrite head_insert_by in Hhead.
  destruct (head (sorted score l)) as [m |] eqn:Hm.
  - destruct (head_is_least score _ m (sorted_sorted score l) Hm) as [_ Hmin].
    destruct (tuple_lt (score m) (score x)) eqn:Hlt; injection Hhead as <-.
    + destruct (IH m eq_refl) as (l1 & l2 & -> & Hbefore & Hbehind).
      exists (x :: l1), l2. split; [reflexivity |]. split; [| exact Hbehind].
      intros f [<- | Hf]; [apply tuple_lt_iff; exact Hlt | apply Hbefore; exact Hf].
    + exists [], l. split; [reflexivity |]. split; [intros f [] |].
      intros f Hf. eapply score_le_trans; [apply tuple_lt_false; exact Hlt |].
      apply Hmin. apply sorted_In. exact Hf.
  - injection Hhead as <-.
    assert (Hnil : l = []).
    { apply (sorted_nil score). destruct (sorted score l); [reflexivity | discriminate]. }
    subst l. exists [], []. split; [reflexivity |]. split; intros f [].
Qed.

Lemma last_greatest_max (c : Format) (l : list Format) :
  last_greatest c l -> In c l /\ forall f, In f l -> score_le (score f) (score c).
Proof.
  intros (l1 & l2 & -> & Hbefore & Hbehind). split.
  - apply in_or_app. right. left. reflexivity.
  - intros f Hf. apply in_app_or in Hf. destruct Hf as [Hf | [<- | Hf]].
    + apply Hbefore. exact Hf.
    + apply score_le_refl.
    + destruct (score_le_total (score f) (score c)) as [Hle | Hle]; [exact Hle |].
      exfalso. exact (Hbehind f Hf Hle).
Qed.

Lemma first_least_min (c : Format) (l : list Format) :
  first_least c l -> In c l /\ forall f, In f l -> score_le (score c) (score f).
Proof.
  intros (l1 & l2 & -> & Hbefore & Hbehind). split.
  - apply in_or_app. right. left. reflexivity.
  - intros f Hf. apply in_app_or in Hf. destruct Hf as [Hf | [<- | Hf]].
    + destruct (score_le_total (score c) (score f)) as [Hle | Hle]; [exact Hle |].
      exfalso. exact (Hbefore f Hf Hle).
    + apply score_le_refl.
    + apply Hbehind. exact Hf.
Qed.

Lemma under_height_sorted (H : Z) (l : list Format) :
  under_height H (sorted score l) = sorted score (under_height H l).
Proof. apply filter_sorted_comm. Qed.

(** What a cap chooses, in terms of the preferred set in input order. *)
Lemma capped_choice (formats : list Format) (pref : string) (H : Z) :
  target_height pref = Ok (Some H) -> 0 < H -> playable formats <> [] ->
  exists c, _pick_format formats pref = Ok (Some c) /\
    (under_height H (preferred formats) <> [] ->
       last_greatest c (under_height H (preferred formats))) /\
    (under_height H (preferred formats) = [] -> first_least c (preferred formats)).
Proof.
  intros Ht Hpos Hp. rewrite (pick_format_preferred _ _ _ Ht).
  unfold choose. simpl truthy. destruct (Z.eqb_spec H 0) as [-> | _]; [lia |].
  rewrite under_height_sorted.
  destruct (under_height H (preferred formats)) as [| u us] eqn:Hu.
  - simpl sorted.
    destruct (sorted score (preferred formats)) as [| c l'] eqn:Hsorted.
    { apply sorted_nil in Hsorted. exfalso. exact (preferred_nonempty _ Hp Hsorted). }
    exists c. split; [reflexivity |]. split; [congruence |].
    intros _. apply head_sorted_first_least. rewrite Hsorted. reflexivity.
  - destruct (sorted score (u :: us)) as [| z zs] eqn:Hsorted.
    { apply sorted_nil in Hsorted. discriminate Hsorted. }
    destruct (last_nonempty (z :: zs)) as [c Hc]; [discriminate |].
    exists c. split; [rewrite Hc; reflexivity |]. split; [| discriminate].
    intros _. apply last_sorted_last_greatest. rewrite Hsorted. exact Hc.
Qed.

Lemma best_choice (formats : list Format) :
  playable formats <> [] ->
  exists c, _pick_format formats "best" = Ok (Some c) /\
            last_greatest c (preferred formats).
Proof.
  intros Hp. rewrite (pick_format_preferred _ _ _ target_height_best).
  unfold choose. simpl truthy. cbv iota.
  destruct (last_nonempty (sorted score (preferred formats))) as [c Hc].
  { intros Hnil. apply sorted_nil in Hnil. exact (preferred_nonempty _ Hp Hnil). }
  exists c. split; [rewrite Hc; reflexivity |].
  apply last_sorted_last_greatest. exact Hc.
Qed.

Lemma pick_format_in_preferred (formats : list Format) (pref : string) (c : Format) :
  _pick_format formats pref = Ok (Some c) -> In c (preferred formats).
Proof.
  intros Hpick. destruct (target_height pref) as [t | e] eqn:Ht.
  - rewrite (pick_format_preferred _ _ _ Ht) in Hpick. injection Hpick as Hc.
    apply (sorted_In score). unfold choose in Hc.
    assert (Hlast : forall l, last l = Some c -> In c l).
    { intros l Hl. induction l as [| z [| z' l'] IH]; [discriminate | | ].
      - injection Hl as ->. left. reflexivity.
      - right. apply IH. exact Hl. }
    destruct (truthy t) as [h |]; [| apply Hlast; exact Hc].
    destruct (under_height h (sorted score (preferred formats))) as [| u us] eqn:Hu.
    + destruct (sorted score (preferred formats)); [discriminate |].
      injection Hc as ->. left. reflexivity.
    + apply Hlast in Hc. rewrite <- Hu in Hc. unfold under_height in Hc.
      apply List.filter_In in Hc. apply Hc.
  - unfold _pick_format in Hpick. rewrite Ht in Hpick. discriminate.
Qed.

Lemma filter_all {A : Type} (p : A -> bool) (l : list A) :
  (forall x, In x l -> p x = true) -> List.filter p l = l.
Proof.
  induction l as [| x l IH]; simpl; intros Hall; [reflexivity |].
  rewrite (Hall x (or_introl eq_refl)), IH; [reflexivity |].
  intros y Hy. apply Hall. right. exact Hy.
Qed.

Lemma preferred_preferred (formats : list Format) :
  preferred (preferred formats) = preferred formats.
Proof.
  assert (Hplay : playable (preferred formats) = preferred formats).
  { apply filter_all. intros f Hf. apply (preferred_playable formats f Hf). }
  unfold preferred at 1. unfold playable_mp4. rewrite Hplay.
  destruct (preferred_cases formats) as [[Hne Heq] | [Hnil Heq]]; rewrite Heq.
  - assert (Hmp4 : List.filter is_mp4 (playable_mp4 formats) = playable_mp4 formats).
    { apply filter_all. intros f Hf. unfold playable_mp4 in Hf.
      apply List.filter_In in Hf. apply Hf. }
    rewrite Hmp4. destruct (playable_mp4 formats); [congruence | reflexivity].
  - fold (playable_mp4 formats). rewrite Hnil. reflexivity.
Qed.

(** An instance of [pick_format_playable]. *)
Lemma pick_format_playable_witness :
  _pick_format [Samples.audio_only; Samples.webm_720] "best" = Ok (Some Samples.webm_720) /\
  In Samples.webm_720 [Samples.audio_only; Samples.webm_720] /\
  is_playable Samples.webm_720 = true.
Proof.
  split; [reflexivity |].
  apply (pick_format_playable [Samples.audio_only; Samples.webm_720] "best").
  reflexivity.
Defined.

(** X2: a preference that is not made of digits only (the empty string,
    "720p", "-5", " 480" and "best" itself among them) selects as "best"
    does. *)
Theorem pick_format_nondigit_as_best (formats : list Format) (pref : string) :
  PyStr.isdigit pref = false ->
  _pick_format formats pref = _pick_format formats "best".
Proof.
  intros Hd.
  assert (Ht : target_height pref = Ok None).
  { unfold target_height. rewrite Hd. reflexivity. }
  rewrite (pick_format_preferred _ _ _ Ht).
  rewrite (pick_format_preferred _ _ _ target_height_best).
  reflexivity.
Qed.

Lemma pick_format_nondigit_as_best_witness :
  PyStr.isdigit "720p" = false /\
  _pick_format [Samples.mp4_240; Samples.mp4_1080] "720p"
  = _pick_format [Samples.mp4_240; Samples.mp4_1080] "best".
Proof.
  split; [reflexivity |].
  apply (pick_format_nondigit_as_best [Samples.mp4_240; Samples.mp4_1080] "720p").
  reflexivity.
Defined.

(** X3: the selector raises exactly when the preference passes [isdigit]
    and [int] does not read it: it holds a character that is not a decimal
    digit, or it has more digits than [int] accepts.  What it raises is
    the [ValueError] of [int], whatever the candidates. *)
Theorem pick_format_raises_iff (formats : list Format) (pref : string) :
  ((exists e, _pick_format formats pref = Raise e) <->
   PyStr.isdigit pref = true /\
   (PyStr.forallb_str PyStr.isdecimal pref = false \/
    PyStr.int_max_str_digits < Z.of_nat (String.length pref))) /\
  (forall e, _pick_format formats pref = Raise e -> e = ValueError).
Proof.
  split.
  - rewrite <- target_height_raises. split.
    + intros [e He]. unfold _pick_format in He.
      destruct (target_height pref) as [t | e']; [| exists e'; reflexivity].
      destruct (List.filter is_mp4 (List.filter is_playable formats)); discriminate.
    + intros [e He]. exists e. unfold _pick_format. rewrite He. reflexivity.
  - intros e He. unfold _pick_format in He.
    destruct (target_height pref) as [t | e'] eqn:Ht.
    + destruct (List.filter is_mp4 (List.filter is_playable formats)); discriminate.
    + injection He as <-. unfold target_height in Ht.
      destruct (PyStr.isdigit pref) eqn:Hd; [| discriminate].
      assert (Hne : pref <> "") by (intros ->; discriminate Hd).
      destruct (int_raises pref Hne) as [_ Hval].
      destruct (PyStr.int pref) as [n | e''] eqn:Hint; [discriminate |].
      injection Ht as <-. apply Hval. reflexivity.
Qed.

(** X4: for "best", the selector returns the last candidate, in the order
    of the input, among those of the preferred set with the greatest key:
    candidates before it have a key at most as great, candidates behind it
    a smaller one. *)
Theorem pick_format_best_last_of_ties (formats : list Format) :
  playable formats <> [] ->
  exists c, _pick_format formats "best" = Ok (Some c) /\
            last_greatest c (preferred formats).
Proof. exact (best_choice formats). Qed.

Lemma pick_format_best_last_of_ties_witness :
  playable [Samples.mp4_480; Samples.candidate "mp4" 480 "http://mirror/480.mp4"] <> [] /\
  exists c,
    _pick_format [Samples.mp4_480; Samples.candidate "mp4" 480 "http://mirror/480.mp4"]
      "best" = Ok (Some c) /\
    last_greatest c
      (preferred [Samples.mp4_480; Samples.candidate "mp4" 480 "http://mirror/480.mp4"]).
Proof.
  split; [vm_compute; discriminate |].
  apply (pick_format_best_last_of_ties
           [Samples.mp4_480; Samples.candidate "mp4" 480 "http://mirror/480.mp4"]).
  vm_compute. discriminate.
Defined.

Example pick_format_best_tie :
  _pick_format [Samples.mp4_480; Samples.candidate "mp4" 480 "http://mirror/480.mp4"]
    "best"
  = Ok (Some (Samples.candidate "mp4" 480 "http://mirror/480.mp4")).
Proof. reflexivity. Qed.

(** X5: for a cap [H], when candidates of the preferred set are under the
    cap the selector returns the last of those with the greatest key, in
    the order of the input; when none is, it returns the first candidate of
    the preferred set among those with the least key. *)
Theorem pick_format_capped_ties (formats : list Format) (pref : string) (H : Z) :
  target_height pref = Ok (Some H) -> 0 < H -> playable formats <> [] ->
  exists c, _pick_format formats pref = Ok (Some c) /\
    (under_height H (preferred formats) <> [] ->
       last_greatest c (under_height H (preferred formats))) /\
    (under_height H (preferred formats) = [] -> first_least c (preferred formats)).
Proof. exact (capped_choice formats pref H). Qed.

Lemma pick_format_capped_ties_witness :
  target_height "360" = Ok (Some 360) /\ 0 < 360 /\
  playable [Samples.mp4_480; Samples.candidate "mp4" 480 "http://mirror/480.mp4"] <> [] /\
  exists c,
    _pick_format [Samples.mp4_480; Samples.candidate "mp4" 480 "http://mirror/480.mp4"]
      "360" = Ok (Some c) /\
    (under_height 360
       (preferred [Samples.mp4_480; Samples.candidate "mp4" 480 "http://mirror/480.mp4"])
     <> [] ->
     last_greatest c
       (under_height 360
          (preferred [Samples.mp4_480;
                      Samples.candidate "mp4" 480 "http://mirror/480.mp4"]))) /\
    (under_height 360
       (preferred [Samples.mp4_480; Samples.candidate "mp4" 480 "http://mirror/480.mp4"])
     = [] ->
     first_least c
       (preferred [Samples.mp4_480; Samples.candidate "mp4" 480 "http://mirror/480.mp4"])).
Proof.
  split; [reflexivity |]. split; [lia |]. split; [vm_compute; discriminate |].
  apply (pick_format_capped_ties
           [Samples.mp4_480; Samples.candidate "mp4" 480 "http://mirror/480.mp4"]
           "360" 360).
  - reflexivity.
  - lia.
  - vm_compute. discriminate.
Defined.

Example pick_format_capped_tie :
  _pick_format [Samples.mp4_480; Samples.candidate "mp4" 480 "http://mirror/480.mp4"]
    "360"
  = Ok (Some Samples.mp4_480).
Proof. reflexivity. Qed.

Lemma pick_format_some_playable (formats : list Format) (pref : string) (c : Format) :
  _pick_format formats pref = Ok (Some c) -> playable formats <> [].
Proof.
  intros Hpick Hnil. apply pick_format_in_preferred in Hpick.
  apply preferred_playable in Hpick. apply List.filter_In in Hpick.
  fold (playable formats) in Hpick. rewrite Hnil in Hpick. exact Hpick.
Qed.

Lemma under_height_In (H : Z) (l : list Format) (f : Format) :
  In f (under_height H l) <-> In f l /\ height_of f <= H.
Proof.
  unfold under_height. rewrite List.filter_In, Z.leb_le. reflexivity.
Qed.

(** X6: raising the cap never lowers what is selected: for caps
    [0 < H1 <= H2] on the same candidates, the key of the candidate chosen
    for [H1] is at most the key of the one chosen for [H2], and so is its
    height. *)
Theorem pick_format_cap_monotone
    (formats : list Format) (p1 p2 : string) (H1 H2 : Z) (c1 c2 : Format) :
  target_height p1 = Ok (Some H1) -> target_height p2 = Ok (Some H2) ->
  0 < H1 -> H1 <= H2 ->
  _pick_format formats p1 = Ok (Some c1) ->
  _pick_format formats p2 = Ok (Some c2) ->
  score_le (score c1) (score c2) /\ height_of c1 <= height_of c2.
Proof.
  intros Ht1 Ht2 Hpos Hle Hpick1 Hpick2.
  assert (Hkey : score_le (score c1) (score c2)).
  { pose proof (pick_format_some_playable _ _ _ Hpick1) as Hp.
    destruct (capped_choice formats p1 H1 Ht1 Hpos Hp) as (c1' & Hc1 & Hunder1 & Hnone1).
    destruct (capped_choice formats p2 H2 Ht2 ltac:(lia) Hp)
      as (c2' & Hc2 & Hunder2 & Hnone2).
    assert (c1' = c1) by congruence. assert (c2' = c2) by congruence. subst c1' c2'.
    destruct (under_height H1 (preferred formats)) as [| u us] eqn:Hu1.
    - destruct (first_least_min _ _ (Hnone1 eq_refl)) as [_ Hmin].
      apply Hmin. exact (pick_format_in_preferred _ _ _ Hpick2).
    - destruct (last_greatest_max _ _ (Hunder1 ltac:(discriminate))) as [Hin1 _].
      rewrite <- Hu1 in Hin1. apply under_height_In in Hin1. destruct Hin1 as [Hin1 Hh1].
      assert (Hin2 : In c1 (under_height H2 (preferred formats))).
      { apply under_height_In. split; [exact Hin1 | lia]. }
      assert (Hne2 : under_height H2 (preferred formats) <> []).
      { intros Hnil. rewrite Hnil in Hin2. exact Hin2. }
      destruct (last_greatest_max _ _ (Hunder2 Hne2)) as [_ Hmax].
      apply Hmax. exact Hin2. }
  split; [exact Hkey | apply (score_le_fst _ _ Hkey)].
Qed.

Lemma pick_format_cap_monotone_witness :
  target_height "360" = Ok (Some 360) /\ target_height "480" = Ok (Some 480) /\
  _pick_format [Samples.mp4_1080; Samples.mp4_480; Samples.mp4_240] "360"
  = Ok (Some Samples.mp4_240) /\
  _pick_format [Samples.mp4_1080; Samples.mp4_480; Samples.mp4_240] "480"
  = Ok (Some Samples.mp4_480) /\
  score_le (score Samples.mp4_240) (score Samples.mp4_480) /\
  height_of Samples.mp4_240 <= height_of Samples.mp4_480.
Proof.
  split; [reflexivity |]. split; [reflexivity |].
  split; [reflexivity |]. split; [reflexivity |].
  apply (pick_format_cap_monotone
           [Samples.mp4_1080; Samples.mp4_480; Samples.mp4_240] "360" "480" 360 480).
  - reflexivity.
  - reflexivity.
  - lia.
  - lia.
  - reflexivity.
  - reflexivity.
Defined.

(** X7: no preference selects a candidate with a greater key, or a greater
    height, than the one "best" selects. *)
Theorem pick_format_at_most_best
    (formats : list Format) (pref : string) (c b : Format) :
  _pick_format formats pref = Ok (Some c) ->
  _pick_format formats "best" = Ok (Some b) ->
  score_le (score c) (score b) /\ height_of c <= height_of b.
Proof.
  intros Hpick Hbest.
  assert (Hkey : score_le (score c) (score b)).
  { destruct (best_choice formats (pick_format_some_playable _ _ _ Hpick))
      as (b' & Hb' & Hlast).
    assert (b' = b) by congruence. subst b'.
    destruct (last_greatest_max _ _ Hlast) as [_ Hmax].
    apply Hmax. exact (pick_format_in_preferred _ _ _ Hpick). }
  split; [exact Hkey | apply (score_le_fst _ _ Hkey)].
Qed.

Lemma pick_format_at_most_best_witness :
  _pick_format [Samples.mp4_1080; Samples.mp4_480] "480" = Ok (Some Samples.mp4_480) /\
  _pick_format [Samples.mp4_1080; Samples.mp4_480] "best" = Ok (Some Samples.mp4_1080) /\
  score_le (score Samples.mp4_480) (score Samples.mp4_1080) /\
  height_of Samples.mp4_480 <= height_of Samples.mp4_1080.
Proof.
  split; [reflexivity |]. split; [reflexivity |].
  apply (pick_format_at_most_best [Samples.mp4_1080; Samples.mp4_480] "480");
    reflexivity.
Defined.

(** X8: only the preferred set matters: candidates without both tracks,
    and candidates that are not mp4 when a playable mp4 exists, can be
    removed from the input without changing what the selector returns or
    raises. *)
Theorem pick_format_only_preferred (formats : list Format) (pref : string) :
  _pick_format formats pref = _pick_format (preferred formats) pref.
Proof.
  destruct (target_height pref) as [t | e] eqn:Ht.
  - rewrite (pick_format_preferred formats _ _ Ht).
    rewrite (pick_format_preferred (preferred formats) _ _ Ht).
    rewrite preferred_preferred. reflexivity.
  - unfold _pick_format. rewrite Ht. reflexivity.
Qed.

(** ** The shape of the suggested filename *)

Section FilenameShape.
Import PyStr Filename.

Lemma length_app_str (s t : string) :
  String.length (s ++ t) = (String.length s + String.length t)%nat.
Proof. induction s as [| c s IH]; simpl; [reflexivity | rewrite IH; reflexivity]. Qed.

Lemma lstrip_length (s : string) : (String.length (lstrip s) <= String.length s)%nat.
Proof.
  induction s as [| c s IH]; simpl; [lia |].
  destruct (isspace c); simpl; lia.
Qed.

Lemma rstrip_length (s : string) : (String.length (rstrip s) <= String.length s)%nat.
Proof.
  induction s as [| c s IH]; simpl; [lia |].
  destruct (rstrip s) as [| c' r'].
  - destruct (isspace c); simpl; lia.
  - simpl in *. lia.
Qed.

Lemma re_sub_outside_length (s : string) :
  (String.length (re_sub_outside s) <= String.length s)%nat /\
  (String.length (rest_of_match s) <= String.length s)%nat.
Proof.
  induction s as [| c s [IHsub IHrest]]; simpl; [split; lia |].
  destruct (in_class c); simpl; split; lia.
Qed.

Lemma lstrip_blank (s : string) : forallb_str isspace s = true -> lstrip s = "".
Proof.
  induction s as [| c s IH]; simpl; [reflexivity |].
  intros Hall. apply andb_prop in Hall. destruct Hall as [Hc Hs].
  rewrite Hc. apply IH. exact Hs.
Qed.

(** X9: whatever the title, the suggested filename is not empty, holds only
    letters, digits, dots, dashes and underscores (so no path separator, no
    blank and no control character), and ends in one of the video
    extensions. *)
Theorem safe_filename_wellformed (name : option string) (default : string) :
  _safe_filename name default <> "" /\
  forallb_str in_class (_safe_filename name default) = true /\
  has_video_ext (_safe_filename name default) = true.
Proof.
  pose proof (safe_filename_in_class name default) as Hall.
  pose proof (safe_filename_has_ext name default) as Hext.
  split; [| split].
  - intros Hnil. rewrite Hnil in Hext. discriminate Hext.
  - exact Hall.
  - rewrite <- (re_search_ext_has_video_ext _ Hall). exact Hext.
Qed.

(** X10: a title that is not empty and holds only characters of the class
    is kept as it is, with ".mp4" appended when it does not end in a video
    extension. *)
Theorem safe_filename_keeps_clean_name (s default : string) :
  s <> "" -> forallb_str in_class s = true ->
  _safe_filename (Some s) default = if has_video_ext s then s else s ++ ".mp4".
Proof.
  intros Hne Hall. unfold _safe_filename.
  assert (Hor : or_str (Some s) default = s).
  { simpl. destruct s; [congruence | reflexivity]. }
  rewrite Hor, (strip_in_class _ Hall), (re_sub_outside_in_class_id _ Hall).
  rewrite (re_search_ext_has_video_ext _ Hall).
  destruct (has_video_ext s); reflexivity.
Qed.

Lemma safe_filename_keeps_clean_name_witness :
  "lecture-01.webm" <> "" /\ forallb_str in_class "lecture-01.webm" = true /\
  _safe_filename (Some "lecture-01.webm") "video"
  = if has_video_ext "lecture-01.webm" then "lecture-01.webm"
    else "lecture-01.webm" ++ ".mp4".
Proof.
  split; [discriminate |]. split; [reflexivity |].
  apply (safe_filename_keeps_clean_name "lecture-01.webm" "video");
    [discriminate | reflexivity].
Defined.

(** X11: a title made of blanks only is not replaced by the default: it is
    stripped to nothing after the default was passed over, and the filename
    is the bare ".mp4". *)
Theorem safe_filename_blank_title (s default : string) :
  s <> "" -> forallb_str isspace s = true ->
  _safe_filename (Some s) default = ".mp4".
Proof.
  intros Hne Hall. unfold _safe_filename.
  assert (Hor : or_str (Some s) default = s).
  { simpl. destruct s; [congruence | reflexivity]. }
  rewrite Hor. unfold strip. rewrite (lstrip_blank _ Hall). reflexivity.
Qed.

Lemma safe_filename_blank_title_witness :
  "   " <> "" /\ forallb_str isspace "   " = true /\
  _safe_filename (Some "   ") "video" = ".mp4".
Proof.
  split; [discriminate |]. split; [reflexivity |].
  apply (safe_filename_blank_title "   " "video"); [discriminate | reflexivity].
Defined.

(** X12: sanitising never lengthens a name by more than the four
    characters of ".mp4": the filename is at most four characters longer
    than the title, or than the default when the title is absent or
    empty. *)
Theorem safe_filename_length (name : option string) (default : string) :
  (String.length (_safe_filename name default)
   <= String.length (or_str name default) + 4)%nat.
Proof.
  unfold _safe_filename. set (s := or_str name default).
  pose proof (lstrip_length s) as Hl.
  pose proof (rstrip_length (lstrip s)) as Hr.
  destruct (re_sub_outside_length (strip s)) as [Hsub _]. unfold strip in *.
  destruct (re_search_ext _); simpl negb; cbv iota.
  - lia.
  - rewrite length_app_str. simpl String.length. lia.
Qed.

End FilenameShape.

(** ** The handler before the fetch *)

Section PreflightFacts.
Import PyStr Handler.

Lemma fresh_not_in_files (m : gmap N bytes) : m !! fresh (dom m) = None.
Proof. apply not_elem_of_dom. apply is_fresh. Qed.

Lemma pick_run (info : Info) (quality : string) (w : World) :
  pick info quality w
  = (match formats info with
     | None => Raise TypeError
     | Some fs => match _pick_format fs quality with
                  | Ok chosen => Ok chosen
                  | Raise e => Raise e
                  end
     end, w).
Proof.
  unfold pick. destruct (formats info) as [fs |]; [| reflexivity].
  destruct (_pick_format fs quality); reflexivity.
Qed.

(** The checks change nothing in the world. *)
Lemma checks_run (cfg : Config) (quality : string) (r : Resolved) (w : World) :
  (let info := first_entry r in
   if too_long cfg info then abort 413 VideoTooLong else
   chosen ← pick info quality;
   match chosen with
   | None => abort 415 NoFormatFound
   | Some chosen =>
       match url chosen with
       | None => abort 415 NoFormatFound
       | Some media_url =>
           if (media_url =? "")%string then abort 415 NoFormatFound else
           if too_large cfg chosen then abort 413 FileTooLarge else
           mret (info, media_url)
       end
   end) w
  = (checks cfg quality r, w).
Proof.
  unfold checks. cbv zeta.
  destruct (too_long cfg (first_entry r)); [reflexivity |].
  unfold mbind, M_bind. rewrite pick_run.
  destruct (formats (first_entry r)) as [fs |]; [| reflexivity].
  destruct (_pick_format fs quality) as [[chosen |] | e]; try reflexivity.
  destruct (url chosen) as [media_url |]; [| reflexivity].
  destruct (media_url =? "")%string; [reflexivity |].
  destruct (too_large cfg chosen); reflexivity.
Qed.

(** The resolver step without a cookie file. *)
Lemma resolve_run_none (env : Env) (u : string) (w : World) :
  resolve env u None w
  = (match extract_info env u None with
     | Ok r => Ok r
     | Raise DownloadError => Raise (HTTPException 400 CouldNotProcess)
     | Raise e => Raise e
     end, log (EvExtract u) w).
Proof.
  unfold resolve, mbind, M_bind, try_except, call_extract_info.
  destruct (extract_info env u None) as [r | e]; [reflexivity |].
  destruct e; reflexivity.
Qed.

(** The resolver step with the cookie file [c] in place: the file is
    removed when the resolver answers or raises [DownloadError], and stays
    when it raises anything else. *)
Lemma resolve_run_some (env : Env) (u : string) (c : N) (d : bytes) (w : World) :
  files w !! c = Some d ->
  exists w',
    resolve env u (Some c) w
    = (match extract_info env u (Some c) with
       | Ok r => Ok r
       | Raise DownloadError => Raise (HTTPException 400 CouldNotProcess)
       | Raise e => Raise e
       end, w') /\
    files w' = match extract_info env u (Some c) with
               | Ok _ | Raise DownloadError => delete c (files w)
               | Raise _ => files w
               end.
Proof.
  intros Hfile.
  unfold resolve, mbind, M_bind, try_except, call_extract_info, unlink_if, unlink.
  destruct (extract_info env u (Some c)) as [r | e].
  - simpl files. rewrite Hfile. eexists. split; reflexivity.
  - destruct e; try (eexists; split; reflexivity).
    simpl files. rewrite Hfile. eexists. split; reflexivity.
Qed.

(** What [preflight] returns or raises, and what it leaves in the
    temporary directory: nothing, but for the cookie file when the resolver
    raised something else than [DownloadError]. *)
Lemma preflight_run (cfg : Config) (env : Env) (req : Request) (w : World) :
  exists w1,
    preflight cfg env req w = (preflight_result cfg env req w, w1) /\
    (files w1 = files w \/
     exists up e,
       url_accepted cfg env req = true /\
       file_cookies req = Some up /\ filename up <> "" /\
       extract_info env (request_url req) (cookie_path req w) = Raise e /\
       e <> DownloadError /\
       files w1 = <[fresh (dom (files w)) := content up]> (files w)).
Proof.
  unfold preflight, preflight_result.
  assert (Hparse : call_urlparse env (request_url req) w
                   = (match urlparse_scheme env (request_url req) with
                      | Ok scheme => Ok scheme
                      | Raise e => Raise e
                      end, w)).
  { unfold call_urlparse. destruct (urlparse_scheme env (request_url req)); reflexivity. }
  destruct (urlparse_scheme env (request_url req)) as [scheme | e0] eqn:Hscheme;
    [rewrite (bind_ok _ _ _ _ _ Hparse)
    | rewrite (bind_raise _ _ _ _ _ Hparse);
      exists w; split; [reflexivity | left; reflexivity]].
  destruct (url_check cfg (request_url req) scheme) eqn:Hcheck; cbn [negb];
    [| exists w; split; [reflexivity | left; reflexivity]].
  assert (Hurl : url_accepted cfg env req = true).
  { unfold url_accepted. rewrite Hscheme. exact Hcheck. }
  assert (Hnone : cookie_path req w = None -> save_cookies req w = (Ok None, w)).
  { unfold cookie_path, save_cookies. destruct (file_cookies req) as [up |]; [| reflexivity].
    destruct (negb (filename up =? "")%string); [discriminate | reflexivity]. }
  destruct (cookie_path req w) as [c |] eqn:Hck.
  - unfold cookie_path in Hck. destruct (file_cookies req) as [up |] eqn:Hup; [| discriminate].
    destruct (negb (filename up =? "")%string) eqn:Hname; [| discriminate].
    injection Hck as <-. set (c := fresh (dom (files w))).
    set (wa := log (EvSave c (content up))
                 (set_files (<[c := content up]> (<[c := []]> (files w)))
                    (log (EvMkTemp c) (set_files (<[c := []]> (files w)) w)))).
    assert (Hsave : save_cookies req w = (Ok (Some c), wa)).
    { unfold save_cookies. rewrite Hup, Hname. reflexivity. }
    rewrite (bind_ok _ _ _ _ _ Hsave).
    assert (Hfile : files wa !! c = Some (content up)) by (simpl; apply lookup_insert_eq).
    destruct (resolve_run_some env (request_url req) c _ wa Hfile) as (wb & Hres & Hfiles).
    assert (Hgone : delete c (files wa) = files w).
    { simpl. rewrite delete_insert_eq, delete_insert_eq.
      apply delete_id. apply fresh_not_in_files. }
    destruct (extract_info env (request_url req) (Some c)) as [r | e] eqn:Hex.
    + rewrite (bind_ok _ _ _ _ _ Hres). exists wb. split; [apply checks_run |].
      left. rewrite Hfiles. exact Hgone.
    + assert (Hleak : e <> DownloadError ->
                      files wb = <[c := content up]> (files w)).
      { intros Hne. rewrite Hfiles. simpl.
        destruct e; try apply insert_insert_eq. congruence. }
      exists wb.
      assert (Hname' : filename up <> "").
      { intros Hn. rewrite Hn in Hname. discriminate Hname. }
      destruct e; rewrite (bind_raise _ _ _ _ _ Hres); (split; [reflexivity |]).
      5: { left. rewrite Hfiles. exact Hgone. }
      all: right; exists up; eexists;
        split; [exact Hurl |]; split; [reflexivity |]; split; [exact Hname' |];
        split; [reflexivity |]; split; [discriminate |];
        apply Hleak; discriminate.
  - rewrite (bind_ok _ _ _ _ _ (Hnone eq_refl)).
    pose proof (resolve_run_none env (request_url req) w) as Hres.
    destruct (extract_info env (request_url req) None) as [r | e] eqn:Hex.
    + rewrite (bind_ok _ _ _ _ _ Hres). eexists. split; [apply checks_run |].
      left. reflexivity.
    + exists (log (EvExtract (request_url req)) w).
      split; [| left; reflexivity].
      destruct e; rewrite (bind_raise _ _ _ _ _ Hres); reflexivity.
Qed.

(** ** The handler after the fetch *)

Lemma no_get_step (e : event) (w w' : World) :
  trace w' = (trace w ++ [e])%list -> is_get e = false -> no_get w w'.
Proof.
  intros Ht He. unfold no_get. rewrite Ht, List.filter_app. simpl.
  rewrite He. apply app_nil_r.
Qed.

(** The loop only touches the file of the relay, sends nothing and
    registers nothing. *)
Lemma relay_loop_frame (cfg : Config) (p : N) (body : stream) :
  forall (written : Z) (w : World) (r : result unit) (w' : World),
    relay_loop cfg p written body w = (r, w') ->
    no_get w w' /\ after_request w' = after_request w /\
    delete p (files w') = delete p (files w).
Proof.
  induction body as [| e | chunk rest IH]; intros written w r w' Hrun.
  - injection Hrun as _ <-. repeat split.
  - injection Hrun as _ <-. repeat split.
  - destruct chunk as [| b bs]; [exact (IH written w r w' Hrun) |].
    set (chunk := b :: bs) in *.
    change (relay_loop cfg p written (SChunk chunk rest) w)
      with ((if MAX_BYTES cfg <? written + len chunk
             then unlink p;; abort 413 ExceededLimit
             else write p chunk;; relay_loop cfg p (written + len chunk) rest) w)
      in Hrun.
    destruct (MAX_BYTES cfg <? written + len chunk).
    + unfold mbind, M_bind, unlink in Hrun. cbv beta iota in Hrun.
      destruct (files w !! p); injection Hrun as _ <-.
      * split; [apply (no_get_step (EvUnlink p)); reflexivity |].
        split; [reflexivity |]. simpl. apply delete_delete_eq.
      * split; [apply (no_get_step (EvUnlinkMissing p)); reflexivity |].
        split; reflexivity.
    + unfold mbind, M_bind, write in Hrun. cbv beta iota in Hrun.
      destruct (IH _ _ _ _ Hrun) as (Hget & Hafter & Hfiles).
      split; [| split].
      * unfold no_get in *. rewrite Hget. simpl. rewrite List.filter_app. simpl.
        apply app_nil_r.
      * rewrite Hafter. reflexivity.
      * rewrite Hfiles. simpl. apply delete_alter_eq.
Qed.

(** The relay leaves the directory as it was but for its own file, which
    is there when a path is returned and gone when the relay raises. *)
Lemma stream_to_temp_frame (cfg : Config) (body : stream) (w : World) :
  exists r w',
    stream_to_temp cfg body w = (r, w') /\
    no_get w w' /\ after_request w' = after_request w /\
    delete (fresh (dom (files w))) (files w') = files w /\
    match r with
    | Ok q => q = fresh (dom (files w))
    | Raise _ => files w' !! fresh (dom (files w)) = None
    end.
Proof.
  set (p := fresh (dom (files w))).
  set (w0 := log (EvMkTemp p) (set_files (<[p := []]> (files w)) w)).
  assert (Hstart : stream_to_temp cfg body w
                   = (try_except (relay_loop cfg p 0 body)
                        (fun _ => Some (unlink p;; abort 500 ErrorDuringDownload));;
                      mret p) w0) by reflexivity.
  assert (H0 : delete p (files w0) = files w).
  { simpl. rewrite delete_insert_eq. apply delete_id. apply fresh_not_in_files. }
  assert (Hget0 : no_get w w0) by (apply (no_get_step (EvMkTemp p)); reflexivity).
  rewrite Hstart. unfold mbind at 1, M_bind at 1, try_except.
  destruct (relay_loop cfg p 0 body w0) as [[[] | e] w1] eqn:Hrun;
    destruct (relay_loop_frame cfg p body 0 w0 _ _ Hrun) as (Hget & Hafter & Hfiles).
  - exists (Ok p), w1. split; [reflexivity |].
    split; [unfold no_get in *; congruence |].
    split; [exact Hafter |]. split; [congruence | reflexivity].
  - unfold mbind, M_bind, unlink. cbv beta iota.
    destruct (files w1 !! p) eqn:Hfile.
    + eexists _, _. split; [reflexivity |].
      split; [unfold no_get in *; simpl; rewrite List.filter_app; simpl;
              rewrite app_nil_r; congruence |].
      split; [exact Hafter |]. simpl.
      split; [rewrite delete_delete_eq; congruence | apply lookup_delete_eq].
    + eexists _, _. split; [reflexivity |].
      split; [unfold no_get in *; simpl; rewrite List.filter_app; simpl;
              rewrite app_nil_r; congruence |].
      split; [exact Hafter |]. simpl. split; [congruence | exact Hfile].
Qed.

(** The request from the fetch on: one request for the media, and the
    directory as it was once [_cleanup] has run. *)
Lemma handle_request_after_preflight
    (cfg : Config) (env : Env) (req : Request) (w w1 : World)
    (info : Info) (u : string) :
  preflight cfg env req (begin_request w) = (Ok (info, u), w1) ->
  files (snd (handle_request cfg env req w)) = files w1 /\
  List.filter is_get (trace (snd (handle_request cfg env req w)))
  = (List.filter is_get (trace w) ++ [EvGet u])%list.
Proof.
  intros Hpre.
  destruct (preflight_quiet cfg env req _ _ _ Hpre) as [Hquiet Hafter].
  simpl in Hquiet, Hafter.
  unfold handle_request, download. rewrite (bind_ok _ _ _ _ _ Hpre). cbv beta iota.
  set (w2 := log (EvGet u) w1).
  assert (Hget2 : List.filter is_get (trace w2)
                  = (List.filter is_get (trace w) ++ [EvGet u])%list).
  { simpl. rewrite List.filter_app, Hquiet. reflexivity. }
  assert (Hfetch : exists rb, fetch env u w1 = (rb, w2)).
  { unfold fetch, try_except, mbind, M_bind, call_requests_get.
    destruct (requests_get env u) as [e | status_code body];
      [destruct e; eexists; reflexivity |].
    unfold raise_for_status.
    destruct ((400 <=? status_code) && (status_code <? 600)); eexists; reflexivity. }
  destruct Hfetch as [[body | e] Hfetch].
  - rewrite (bind_ok _ _ _ _ _ Hfetch).
    destruct (stream_to_temp_frame cfg body w2)
      as (r & w3 & Hrelay & Hget3 & Hafter3 & Hfiles3 & Hr).
    unfold no_get in Hget3. change (files w2) with (files w1) in *.
    change (after_request w2) with (after_request w1) in Hafter3.
    destruct r as [q | e].
    + subst q. rewrite (bind_ok _ _ _ _ _ Hrelay).
      unfold mbind, M_bind, after_this_request, send_file. cbv beta iota.
      simpl files.
      assert (Hclean : forall w4, files w4 = files w3 ->
                files (_cleanup (fresh (dom (files w1))) w4) = files w1 /\
                List.filter is_get (trace (_cleanup (fresh (dom (files w1))) w4))
                = List.filter is_get (trace w4)).
      { intros w4 H4. unfold _cleanup, unlink. rewrite H4.
        destruct (files w3 !! fresh (dom (files w1))) eqn:Hfile; simpl.
        - split; [exact Hfiles3 |].
          rewrite List.filter_app. simpl. apply app_nil_r.
        - split; [| rewrite List.filter_app; simpl; apply app_nil_r].
          rewrite ?H4, <- Hfiles3. symmetry. apply delete_id. exact Hfile. }
      destruct (files w3 !! fresh (dom (files w1))); simpl;
        rewrite Hafter3, Hafter; simpl;
        (match goal with
         | |- files (_cleanup _ ?w4) = _ /\ _ =>
             destruct (Hclean w4 eq_refl) as [Hf Hg]; split; [exact Hf |];
             rewrite Hg; simpl; congruence
         end).
    + rewrite (bind_raise _ _ _ _ _ Hrelay). rewrite Hafter3, Hafter. simpl.
      split; [| congruence].
      rewrite <- Hfiles3. symmetry. apply delete_id. exact Hr.
  - rewrite (bind_raise _ _ _ _ _ Hfetch). simpl after_request. rewrite Hafter.
    simpl. split; [reflexivity | exact Hget2].
Qed.

(** The request that stops before the fetch. *)
Lemma handle_request_preflight_raise
    (cfg : Config) (env : Env) (req : Request) (w w1 : World) (e : exn) :
  preflight cfg env req (begin_request w) = (Raise e, w1) ->
  handle_request cfg env req w = (response_of (Raise e), w1) /\
  List.filter is_get (trace w1) = List.filter is_get (trace w).
Proof.
  intros Hpre.
  destruct (preflight_quiet cfg env req _ _ _ Hpre) as [Hquiet Hafter].
  simpl in Hquiet, Hafter.
  unfold handle_request, download. rewrite (bind_raise _ _ _ _ _ Hpre).
  rewrite Hafter. split; [reflexivity | exact Hquiet].
Qed.

(** ** Requests that stop before the fetch *)

Lemma preflight_result_accepted
    (cfg : Config) (env : Env) (req : Request) (w : World) :
  url_accepted cfg env req = true ->
  preflight_result cfg env req w
  = match extract_info env (request_url req) (cookie_path req w) with
    | Ok r => checks cfg (request_quality req) r
    | Raise DownloadError => Raise (HTTPException 400 CouldNotProcess)
    | Raise e => Raise e
    end.
Proof.
  unfold url_accepted, preflight_result.
  destruct (urlparse_scheme env (request_url req)) as [scheme | e]; [| discriminate].
  intros ->. reflexivity.
Qed.

Lemma preflight_result_ok_accepted
    (cfg : Config) (env : Env) (req : Request) (w : World) (x : Info * string) :
  preflight_result cfg env req w = Ok x -> url_accepted cfg env req = true.
Proof.
  unfold url_accepted, preflight_result.
  destruct (urlparse_scheme env (request_url req)) as [scheme | e]; [| discriminate].
  destruct (url_check cfg (request_url req) scheme); [reflexivity | discriminate].
Qed.

Lemma preflight_result_ok_inv
    (cfg : Config) (env : Env) (req : Request) (w : World) (info : Info) (u : string) :
  preflight_result cfg env req w = Ok (info, u) ->
  exists r fs chosen,
    url_accepted cfg env req = true /\
    extract_info env (request_url req) (cookie_path req w) = Ok r /\
    info = first_entry r /\
    too_long cfg info = false /\
    formats info = Some fs /\
    _pick_format fs (request_quality req) = Ok (Some chosen) /\
    url chosen = Some u /\ u <> "" /\
    too_large cfg chosen = false.
Proof.
  intros Hres. pose proof (preflight_result_ok_accepted _ _ _ _ _ Hres) as Hacc.
  rewrite (preflight_result_accepted _ _ _ _ Hacc) in Hres. revert Hres.
  unfold checks.
  destruct (extract_info env (request_url req) (cookie_path req w)) as [r | e];
    [| destruct e; discriminate].
  destruct (too_long cfg (first_entry r)) eqn:Hlong; [discriminate |].
  destruct (formats (first_entry r)) as [fs |] eqn:Hfs; [| discriminate].
  destruct (_pick_format fs (request_quality req)) as [[chosen |] | e] eqn:Hpick;
    try discriminate.
  destruct (url chosen) as [media_url |] eqn:Hurl; [| discriminate].
  destruct (String.eqb_spec media_url "") as [| Hne]; [discriminate |].
  destruct (too_large cfg chosen) eqn:Hlarge; [discriminate |].
  intros Heq. injection Heq as <- <-.
  exists r, fs, chosen. repeat split; assumption.
Qed.

(** A request that the checks stop gets the response of what they raise;
    no media is requested, and the directory is as before when the resolver
    raises nothing but [DownloadError]. *)
Lemma request_stopped
    (cfg : Config) (env : Env) (req : Request) (w : World) (e : exn) :
  preflight_result cfg env req (begin_request w) = Raise e ->
  (forall e', extract_info env (request_url req) (cookie_path req w) = Raise e' ->
              e' = DownloadError) ->
  fst (handle_request cfg env req w) = response_of (Raise e) /\
  files (snd (handle_request cfg env req w)) = files w /\
  List.filter is_get (trace (snd (handle_request cfg env req w)))
  = List.filter is_get (trace w).
Proof.
  intros Hres Honly.
  destruct (preflight_run cfg env req (begin_request w)) as (w1 & Hpre & Hfiles).
  rewrite Hres in Hpre.
  destruct (handle_request_preflight_raise cfg env req w w1 e Hpre) as [Hresp Hget].
  rewrite Hresp. simpl fst. simpl snd. split; [reflexivity |]. split; [| exact Hget].
  destruct Hfiles as [Hsame | (up & e' & _ & _ & _ & Hex & Hne & _)]; [exact Hsame |].
  exfalso. apply Hne. apply Honly. exact Hex.
Qed.

(** X13: a request whose URL [urlparse] splits, and which is empty or has a
    scheme that is not allowed, is answered 400 before anything is done: no
    cookie file is written, the resolver is not called, nothing is fetched,
    and the world is the one the request started in. *)
Theorem invalid_url_rejected
    (cfg : Config) (env : Env) (req : Request) (w : World) (scheme : string) :
  urlparse_scheme env (request_url req) = Ok scheme ->
  url_check cfg (request_url req) scheme = false ->
  handle_request cfg env req w = (ErrorResponse 400 InvalidURL, begin_request w).
Proof.
  intros Hparse Hcheck.
  assert (Hpre : preflight cfg env req (begin_request w)
                 = (Raise (HTTPException 400 InvalidURL), begin_request w)).
  { unfold preflight, call_urlparse. cbv zeta. rewrite Hparse.
    rewrite (bind_ok (mret scheme) _ (begin_request w) (begin_request w) scheme eq_refl).
    rewrite Hcheck. reflexivity. }
  unfold handle_request, download. rewrite (bind_raise _ _ _ _ _ Hpre). reflexivity.
Qed.

Lemma invalid_url_rejected_witness :
  urlparse_scheme MoreSamples.env_ftp (request_url MoreSamples.request_ftp) = Ok "ftp" /\
  url_check app_config (request_url MoreSamples.request_ftp) "ftp" = false /\
  handle_request app_config MoreSamples.env_ftp MoreSamples.request_ftp empty_world
  = (ErrorResponse 400 InvalidURL, begin_request empty_world).
Proof.
  split; [reflexivity |]. split; [reflexivity |].
  apply (invalid_url_rejected app_config MoreSamples.env_ftp MoreSamples.request_ftp
           empty_world "ftp"); reflexivity.
Defined.

(** X24: when [urlparse] raises on the URL (line 102 comes before the test
    of the scheme), the request ends with that exception, the 500 of a
    [ValueError], whatever the scheme; nothing else is done. *)
Theorem unparsable_url_answers_500
    (cfg : Config) (env : Env) (req : Request) (w : World) (e : exn) :
  urlparse_scheme env (request_url req) = Raise e ->
  handle_request cfg env req w = (response_of (Raise e), begin_request w).
Proof.
  intros Hparse.
  assert (Hpre : preflight cfg env req (begin_request w) = (Raise e, begin_request w)).
  { unfold preflight, call_urlparse. cbv zeta. rewrite Hparse. reflexivity. }
  unfold handle_request, download. rewrite (bind_raise _ _ _ _ _ Hpre). reflexivity.
Qed.

Lemma unparsable_url_answers_500_witness :
  urlparse_scheme MoreSamples.env_unparsable (request_url MoreSamples.request_ftp)
  = Raise ValueError /\
  handle_request app_config MoreSamples.env_unparsable MoreSamples.request_ftp empty_world
  = (InternalServerError ValueError, begin_request empty_world).
Proof.
  split; [reflexivity |].
  apply (unparsable_url_answers_500 app_config MoreSamples.env_unparsable
           MoreSamples.request_ftp empty_world ValueError).
  reflexivity.
Defined.

(** X14: when the resolver raises [DownloadError], the request is answered
    400, the uploaded cookie file is removed again, and nothing is
    fetched. *)
Theorem download_error_rejected (cfg : Config) (env : Env) (req : Request) (w : World) :
  url_accepted cfg env req = true ->
  extract_info env (request_url req) (cookie_path req w) = Raise DownloadError ->
  fst (handle_request cfg env req w) = ErrorResponse 400 CouldNotProcess /\
  files (snd (handle_request cfg env req w)) = files w /\
  List.filter is_get (trace (snd (handle_request cfg env req w)))
  = List.filter is_get (trace w).
Proof.
  intros Hurl Hex.
  apply (request_stopped cfg env req w (HTTPException 400 CouldNotProcess)).
  - rewrite (preflight_result_accepted _ _ _ _ Hurl).
    change (cookie_path req (begin_request w)) with (cookie_path req w).
    rewrite Hex. reflexivity.
  - intros e' He'. congruence.
Qed.

Lemma download_error_rejected_witness :
  url_accepted app_config (MoreSamples.env_raising DownloadError) Samples.request = true /\
  fst (handle_request app_config (MoreSamples.env_raising DownloadError)
         Samples.request empty_world)
  = ErrorResponse 400 CouldNotProcess /\
  files (snd (handle_request app_config (MoreSamples.env_raising DownloadError)
                Samples.request empty_world))
  = files empty_world /\
  List.filter is_get
    (trace (snd (handle_request app_config (MoreSamples.env_raising DownloadError)
                   Samples.request empty_world)))
  = List.filter is_get (trace empty_world).
Proof.
  split; [reflexivity |].
  apply (download_error_rejected app_config (MoreSamples.env_raising DownloadError)
           Samples.request empty_world); reflexivity.
Defined.

(** X15: whatever the request, the resolver's answer and the response of
    the media server, the handler leaves the temporary directory as it
    found it, provided the resolver raises nothing but [DownloadError]:
    the cookie file and the file of the relay are both gone when the
    request is over. *)
Theorem temp_directory_restored (cfg : Config) (env : Env) (req : Request) (w : World) :
  (forall e, extract_info env (request_url req) (cookie_path req w) = Raise e ->
             e = DownloadError) ->
  files (snd (handle_request cfg env req w)) = files w.
Proof.
  intros Honly.
  destruct (preflight_result cfg env req (begin_request w)) as [[info u] | e] eqn:Hres.
  - destruct (preflight_run cfg env req (begin_request w)) as (w1 & Hpre & Hfiles).
    rewrite Hres in Hpre.
    destruct (handle_request_after_preflight cfg env req w w1 info u Hpre) as [Hf _].
    rewrite Hf.
    destruct Hfiles as [Hsame | (up & e' & _ & _ & _ & Hex & Hne & _)]; [exact Hsame |].
    exfalso. apply Hne. apply Honly. exact Hex.
  - apply (request_stopped cfg env req w e Hres Honly).
Qed.

Lemma temp_directory_restored_witness :
  files (snd (handle_request app_config
                (Samples.env_of (Samples.info_of (60 # 1) [Samples.mp4_480])
                   (HttpResponse 200 (SChunk Samples.two_bytes (SRaise OtherException))))
                Samples.request empty_world))
  = files empty_world.
Proof.
  apply (temp_directory_restored app_config
           (Samples.env_of (Samples.info_of (60 # 1) [Samples.mp4_480])
              (HttpResponse 200 (SChunk Samples.two_bytes (SRaise OtherException))))
           Samples.request empty_world).
  intros e He. discriminate He.
Defined.

(** X16: when the resolver raises anything else than [DownloadError], no
    [except] clause matches: the request ends with that exception (a 500),
    and the uploaded cookie file stays in the temporary directory. *)
Theorem cookie_file_left_behind
    (cfg : Config) (env : Env) (req : Request) (w : World) (up : Upload) (e : exn) :
  url_accepted cfg env req = true ->
  file_cookies req = Some up -> filename up <> "" ->
  extract_info env (request_url req) (Some (fresh (dom (files w)))) = Raise e ->
  e <> DownloadError ->
  fst (handle_request cfg env req w) = response_of (Raise e) /\
  files (snd (handle_request cfg env req w))
  = <[fresh (dom (files w)) := content up]> (files w).
Proof.
  intros Hurl Hup Hname Hex Hne.
  assert (Hck : cookie_path req (begin_request w) = Some (fresh (dom (files w)))).
  { unfold cookie_path. rewrite Hup.
    destruct (String.eqb_spec (filename up) "") as [Heq | _]; [contradiction | reflexivity]. }
  destruct (preflight_run cfg env req (begin_request w)) as (w1 & Hpre & Hfiles).
  assert (Hres : preflight_result cfg env req (begin_request w) = Raise e).
  { rewrite (preflight_result_accepted _ _ _ _ Hurl), Hck, Hex.
    destruct e; try reflexivity. congruence. }
  rewrite Hres in Hpre.
  destruct (handle_request_preflight_raise cfg env req w w1 e Hpre) as [Hresp _].
  rewrite Hresp. simpl fst. simpl snd. split; [reflexivity |].
  destruct Hfiles as [Hsame | (up' & e' & _ & Hup' & _ & _ & _ & Hleak)].
  - exfalso.
    assert (Hin : files w1 !! fresh (dom (files w)) = None).
    { rewrite Hsame. apply (fresh_not_in_files (files w)). }
    revert Hin. clear - Hpre Hup Hname Hex Hne Hurl Hck.
    unfold preflight in Hpre.
    destruct (url_accepted_run cfg env req (begin_request w) Hurl)
      as (scheme & _ & Hcheck & Hparse).
    rewrite (bind_ok _ _ _ _ _ Hparse), Hcheck in Hpre. cbn [negb] in Hpre.
    set (c := fresh (dom (files w))) in *.
    set (wa := log (EvSave c (content up))
                 (set_files (<[c := content up]> (<[c := []]> (files w)))
                    (log (EvMkTemp c)
                       (set_files (<[c := []]> (files w)) (begin_request w))))).
    assert (Hsave : save_cookies req (begin_request w) = (Ok (Some c), wa)).
    { unfold save_cookies. rewrite Hup.
      destruct (String.eqb_spec (filename up) "") as [Heq | _]; [contradiction |].
      reflexivity. }
    rewrite (bind_ok _ _ _ _ _ Hsave) in Hpre.
    assert (Hfile : files wa !! c = Some (content up)) by (simpl; apply lookup_insert_eq).
    destruct (resolve_run_some env (request_url req) c _ wa Hfile) as (wb & Hrun & Hfb).
    rewrite Hex in Hrun, Hfb.
    assert (Hrun' : resolve env (request_url req) (Some c) wa = (Raise e, wb)).
    { rewrite Hrun. destruct e; try reflexivity. congruence. }
    rewrite (bind_raise _ _ _ _ _ Hrun') in Hpre. injection Hpre as <-.
    assert (Hfb' : files wb = files wa) by (rewrite Hfb; destruct e; congruence).
    rewrite Hfb', Hfile. discriminate.
  - rewrite Hup in Hup'. injection Hup' as <-. exact Hleak.
Qed.

Lemma cookie_file_left_behind_witness :
  url_accepted app_config (MoreSamples.env_raising OtherException) Samples.request = true /\
  fst (handle_request app_config (MoreSamples.env_raising OtherException)
         Samples.request empty_world)
  = InternalServerError OtherException /\
  files (snd (handle_request app_config (MoreSamples.env_raising OtherException)
                Samples.request empty_world))
  = <[fresh (dom (files empty_world)) := [Byte.x23]]> (files empty_world).
Proof.
  split; [reflexivity |].
  apply (cookie_file_left_behind app_config (MoreSamples.env_raising OtherException)
           Samples.request empty_world
           {| filename := "cookies.txt"; content := [Byte.x23] |} OtherException).
  - reflexivity.
  - reflexivity.
  - discriminate.
  - reflexivity.
  - discriminate.
Defined.

(** X17: a request sends at most one request for media, and it sends it
    only when every check has passed: the URL was accepted, the resolver
    answered, the duration is not over the limit, the selector returned a
    candidate with both tracks from the resolver's list, the request goes to
    the URL of that candidate, and its estimated size is not over the
    ceiling. *)
Theorem fetch_only_after_checks (cfg : Config) (env : Env) (req : Request) (w : World) :
  List.filter is_get (trace (snd (handle_request cfg env req w)))
  = List.filter is_get (trace w) \/
  exists r fs chosen u,
    List.filter is_get (trace (snd (handle_request cfg env req w)))
    = (List.filter is_get (trace w) ++ [EvGet u])%list /\
    url_accepted cfg env req = true /\
    extract_info env (request_url req) (cookie_path req w) = Ok r /\
    too_long cfg (first_entry r) = false /\
    formats (first_entry r) = Some fs /\
    _pick_format fs (request_quality req) = Ok (Some chosen) /\
    In chosen fs /\ is_playable chosen = true /\
    url chosen = Some u /\ u <> "" /\
    too_large cfg chosen = false.
Proof.
  destruct (preflight_run cfg env req (begin_request w)) as (w1 & Hpre & _).
  destruct (preflight_result cfg env req (begin_request w)) as [[info u] | e] eqn:Hres.
  - right.
    destruct (preflight_result_ok_inv _ _ _ _ _ _ Hres)
      as (r & fs & chosen & Hurl & Hex & -> & Hlong & Hfs & Hpick & Hu & Hne & Hlarge).
    destruct (handle_request_after_preflight cfg env req w w1 _ u Hpre) as [_ Hget].
    destruct (preferred_playable _ _ (pick_format_in_preferred _ _ _ Hpick))
      as [Hin Hplay].
    exists r, fs, chosen, u. repeat split; assumption.
  - left.
    destruct (handle_request_preflight_raise cfg env req w w1 e Hpre) as [Hresp Hget].
    rewrite Hresp. exact Hget.
Qed.

Lemma checks_stopped
    (cfg : Config) (env : Env) (req : Request) (w : World) (r : Resolved) (e : exn) :
  url_accepted cfg env req = true ->
  extract_info env (request_url req) (cookie_path req w) = Ok r ->
  checks cfg (request_quality req) r = Raise e ->
  fst (handle_request cfg env req w) = response_of (Raise e) /\
  files (snd (handle_request cfg env req w)) = files w /\
  List.filter is_get (trace (snd (handle_request cfg env req w)))
  = List.filter is_get (trace w).
Proof.
  intros Hurl Hex Hchecks. apply (request_stopped cfg env req w e).
  - rewrite (preflight_result_accepted _ _ _ _ Hurl).
    change (cookie_path req (begin_request w)) with (cookie_path req w).
    rewrite Hex. exact Hchecks.
  - intros e' He'. rewrite Hex in He'. discriminate He'.
Qed.

(** X20: when the selector returns no candidate, or a candidate whose URL
    is missing or empty, the request is answered 415; nothing is fetched
    and the temporary directory is as before. *)
Theorem unsupported_format_rejected
    (cfg : Config) (env : Env) (req : Request) (w : World) (r : Resolved)
    (fs : list Format) (chosen : option Format) :
  url_accepted cfg env req = true ->
  extract_info env (request_url req) (cookie_path req w) = Ok r ->
  too_long cfg (first_entry r) = false ->
  formats (first_entry r) = Some fs ->
  _pick_format fs (request_quality req) = Ok chosen ->
  (chosen = None \/
   exists c, chosen = Some c /\ (url c = None \/ url c = Some "")) ->
  fst (handle_request cfg env req w) = ErrorResponse 415 NoFormatFound /\
  files (snd (handle_request cfg env req w)) = files w /\
  List.filter is_get (trace (snd (handle_request cfg env req w)))
  = List.filter is_get (trace w).
Proof.
  intros Hurl Hex Hlong Hfs Hpick Hnone.
  apply (checks_stopped cfg env req w r (HTTPException 415 NoFormatFound) Hurl Hex).
  unfold checks. cbv zeta. rewrite Hlong, Hfs, Hpick.
  destruct Hnone as [-> | (c & -> & [Hu | Hu])]; [reflexivity | |]; rewrite Hu; reflexivity.
Qed.

Lemma unsupported_format_rejected_witness :
  url_accepted app_config
    (Samples.env_of (Samples.info_of (60 # 1) [Samples.audio_only; MoreSamples.mp4_without_url])
       ConnectionFailed)
    Samples.request = true /\
  _pick_format [Samples.audio_only; MoreSamples.mp4_without_url] "480"
  = Ok (Some MoreSamples.mp4_without_url) /\
  fst (handle_request app_config
         (Samples.env_of
            (Samples.info_of (60 # 1) [Samples.audio_only; MoreSamples.mp4_without_url])
            ConnectionFailed)
         Samples.request empty_world)
  = ErrorResponse 415 NoFormatFound.
Proof.
  split; [reflexivity |]. split; [reflexivity |].
  refine (proj1 (unsupported_format_rejected app_config
                   (Samples.env_of
                      (Samples.info_of (60 # 1)
                         [Samples.audio_only; MoreSamples.mp4_without_url])
                      ConnectionFailed)
                   Samples.request empty_world
                   {| top := Samples.info_of (60 # 1)
                               [Samples.audio_only; MoreSamples.mp4_without_url];
                      entries := None |}
                   [Samples.audio_only; MoreSamples.mp4_without_url]
                   (Some MoreSamples.mp4_without_url) _ _ _ _ _ _)).
  - reflexivity.
  - reflexivity.
  - reflexivity.
  - reflexivity.
  - reflexivity.
  - right. exists MoreSamples.mp4_without_url. split; [reflexivity | left; reflexivity].
Defined.

(** X21: when the chosen candidate reports a size, or failing that an
    approximate size, that is over the ceiling, the request is answered 413
    with the message for a file that is too large, before anything is
    fetched. *)
Theorem estimated_size_rejected
    (cfg : Config) (env : Env) (req : Request) (w : World) (r : Resolved)
    (fs : list Format) (chosen : Format) (u : string) (size : Z) :
  url_accepted cfg env req = true ->
  extract_info env (request_url req) (cookie_path req w) = Ok r ->
  too_long cfg (first_entry r) = false ->
  formats (first_entry r) = Some fs ->
  _pick_format fs (request_quality req) = Ok (Some chosen) ->
  url chosen = Some u -> u <> "" ->
  est_size chosen = Some size -> size <> 0 -> MAX_BYTES cfg < size ->
  fst (handle_request cfg env req w) = ErrorResponse 413 FileTooLarge /\
  files (snd (handle_request cfg env req w)) = files w /\
  List.filter is_get (trace (snd (handle_request cfg env req w)))
  = List.filter is_get (trace w).
Proof.
  intros Hurl Hex Hlong Hfs Hpick Hu Hne Hsize Hnz Hover.
  apply (checks_stopped cfg env req w r (HTTPException 413 FileTooLarge) Hurl Hex).
  unfold checks. cbv zeta. rewrite Hlong, Hfs, Hpick, Hu.
  destruct (String.eqb_spec u "") as [| _]; [contradiction |].
  unfold too_large. rewrite Hsize.
  destruct (Z.eqb_spec size 0) as [| _]; [contradiction |].
  destruct (Z.ltb_spec (MAX_BYTES cfg) size) as [_ | Hle]; [reflexivity | lia].
Qed.

Lemma estimated_size_rejected_witness :
  est_size MoreSamples.mp4_huge = Some (400 * 1024 * 1024) /\
  MAX_BYTES app_config < 400 * 1024 * 1024 /\
  fst (handle_request app_config
         (Samples.env_of (Samples.info_of (60 # 1) [MoreSamples.mp4_huge]) ConnectionFailed)
         Samples.request empty_world)
  = ErrorResponse 413 FileTooLarge.
Proof.
  split; [reflexivity |]. split; [reflexivity |].
  refine (proj1 (estimated_size_rejected app_config
                   (Samples.env_of (Samples.info_of (60 # 1) [MoreSamples.mp4_huge])
                      ConnectionFailed)
                   Samples.request empty_world
                   {| top := Samples.info_of (60 # 1) [MoreSamples.mp4_huge];
                      entries := None |}
                   [MoreSamples.mp4_huge] MoreSamples.mp4_huge "http://media/2160.mp4"
                   (400 * 1024 * 1024) _ _ _ _ _ _ _ _ _ _)).
  - reflexivity.
  - reflexivity.
  - reflexivity.
  - reflexivity.
  - reflexivity.
  - reflexivity.
  - discriminate.
  - reflexivity.
  - discriminate.
  - reflexivity.
Defined.

(** X22: when the resolver's answer has no key "formats", the selector is
    called on [None] and the request ends with the 500 of a [TypeError];
    nothing is fetched. *)
Theorem missing_formats_answers_500
    (cfg : Config) (env : Env) (req : Request) (w : World) (r : Resolved) :
  url_accepted cfg env req = true ->
  extract_info env (request_url req) (cookie_path req w) = Ok r ->
  too_long cfg (first_entry r) = false ->
  formats (first_entry r) = None ->
  fst (handle_request cfg env req w) = InternalServerError TypeError /\
  files (snd (handle_request cfg env req w)) = files w /\
  List.filter is_get (trace (snd (handle_request cfg env req w)))
  = List.filter is_get (trace w).
Proof.
  intros Hurl Hex Hlong Hfs.
  apply (checks_stopped cfg env req w r TypeError Hurl Hex).
  unfold checks. cbv zeta. rewrite Hlong, Hfs. reflexivity.
Qed.

Lemma missing_formats_answers_500_witness :
  formats MoreSamples.info_without_formats = None /\
  fst (handle_request app_config
         (Samples.env_of MoreSamples.info_without_formats ConnectionFailed)
         Samples.request empty_world)
  = InternalServerError TypeError.
Proof.
  split; [reflexivity |].
  refine (proj1 (missing_formats_answers_500 app_config
                   (Samples.env_of MoreSamples.info_without_formats ConnectionFailed)
                   Samples.request empty_world
                   {| top := MoreSamples.info_without_formats; entries := None |}
                   _ _ _ _)); reflexivity.
Defined.

(** X23: a quality made of digits of which one is not a decimal digit (a
    superscript two, say) makes the request end with the 500 of the
    [ValueError] of [int], whatever the candidates; nothing is fetched. *)
Theorem bad_preference_answers_500
    (cfg : Config) (env : Env) (req : Request) (w : World) (r : Resolved)
    (fs : list Format) :
  url_accepted cfg env req = true ->
  extract_info env (request_url req) (cookie_path req w) = Ok r ->
  too_long cfg (first_entry r) = false ->
  formats (first_entry r) = Some fs ->
  isdigit (request_quality req) = true ->
  forallb_str isdecimal (request_quality req) = false ->
  fst (handle_request cfg env req w) = InternalServerError ValueError /\
  files (snd (handle_request cfg env req w)) = files w /\
  List.filter is_get (trace (snd (handle_request cfg env req w)))
  = List.filter is_get (trace w).
Proof.
  intros Hurl Hex Hlong Hfs Hdigit Hdec.
  apply (checks_stopped cfg env req w r ValueError Hurl Hex).
  unfold checks. cbv zeta. rewrite Hlong, Hfs.
  unfold _pick_format, target_height, int. rewrite Hdigit, Hdec. reflexivity.
Qed.

Lemma bad_preference_answers_500_witness :
  isdigit (request_quality (MoreSamples.request_with_quality Samples.superscript_two))
  = true /\
  fst (handle_request app_config
         (Samples.env_of (Samples.info_of (60 # 1) [Samples.mp4_480]) ConnectionFailed)
         (MoreSamples.request_with_quality Samples.superscript_two) empty_world)
  = InternalServerError ValueError.
Proof.
  split; [reflexivity |].
  refine (proj1 (bad_preference_answers_500 app_config
                   (Samples.env_of (Samples.info_of (60 # 1) [Samples.mp4_480])
                      ConnectionFailed)
                   (MoreSamples.request_with_quality Samples.superscript_two)
                   empty_world
                   {| top := Samples.info_of (60 # 1) [Samples.mp4_480]; entries := None |}
                   [Samples.mp4_480] _ _ _ _ _ _)); reflexivity.
Defined.

(** ** The relay on a body that fails *)

Lemma relay_loop_fails (cfg : Config) (p : N) (e : exn) (chunks : list bytes) :
  forall (written : Z) (w : World) (d : bytes),
    files w !! p = Some d -> written + total_len chunks <= MAX_BYTES cfg ->
    exists w',
      relay_loop cfg p written (prepend chunks (SRaise e)) w = (Raise e, w') /\
      files w' !! p = Some (d ++ concat chunks)%list.
Proof.
  induction chunks as [| chunk chunks IH]; intros written w d Hfile Hfits.
  - exists w. simpl. rewrite app_nil_r. split; [reflexivity | exact Hfile].
  - rewrite total_len_cons in Hfits. pose proof (total_len_nonneg chunks) as Hnn.
    destruct chunk as [| b bs].
    + change (len []) with 0 in Hfits.
      destruct (IH written w d Hfile) as [w' Hw']; [lia |]. exists w'. exact Hw'.
    + set (chunk := b :: bs) in *.
      change (relay_loop cfg p written (prepend (chunk :: chunks) (SRaise e)) w)
        with ((if MAX_BYTES cfg <? written + len chunk
               then unlink p;; abort 413 ExceededLimit
               else write p chunk;;
                    relay_loop cfg p (written + len chunk)
                      (prepend chunks (SRaise e))) w).
      destruct (Z.ltb_spec (MAX_BYTES cfg) (written + len chunk)) as [Hnow | _]; [lia |].
      set (w1 := log (EvWrite p chunk)
                   (set_files (alter (fun d => (d ++ chunk)%list) p (files w)) w)).
      assert (Hfile1 : files w1 !! p = Some (d ++ chunk)%list).
      { simpl. rewrite lookup_alter_eq, Hfile. reflexivity. }
      destruct (IH (written + len chunk) w1 _ Hfile1) as (w' & Hrun & Hw'); [lia |].
      exists w'. split.
      * unfold mbind, M_bind, write. cbv beta iota. fold w1. exact Hrun.
      * rewrite Hw'. simpl concat. rewrite <- app_assoc. reflexivity.
Qed.

(** X19: when the body of an accepted response fails after chunks that fit
    under the ceiling, whatever the exception, the request is answered 500
    with the message of a failed download, and the temporary directory is
    as it was after the checks: the partial file is removed. *)
Theorem stream_failure_answers_500
    (cfg : Config) (env : Env) (req : Request) (w w1 : World) (info : Info)
    (u : string) (status_code : Z) (chunks : list bytes) (e : exn) :
  preflight cfg env req (begin_request w) = (Ok (info, u), w1) ->
  requests_get env u = HttpResponse status_code (prepend chunks (SRaise e)) ->
  ~ (400 <= status_code < 600) ->
  total_len chunks <= MAX_BYTES cfg ->
  fst (handle_request cfg env req w) = ErrorResponse 500 ErrorDuringDownload /\
  files (snd (handle_request cfg env req w)) = files w1.
Proof.
  intros Hpre Hget Hst Hfits.
  split; [| apply (handle_request_after_preflight cfg env req w w1 info u Hpre)].
  set (p := fresh (dom (files w1))).
  set (w2 := log (EvMkTemp p) (set_files (<[p := []]> (files w1)) (log (EvGet u) w1))).
  assert (Hfile2 : files w2 !! p = Some []) by (simpl; apply lookup_insert_eq).
  destruct (relay_loop_fails cfg p e chunks 0 w2 [] Hfile2) as (w3 & Hrun & Hfile3);
    [lia |].
  assert (Hrelay : exists w4,
             stream_to_temp cfg (prepend chunks (SRaise e)) (log (EvGet u) w1)
             = (Raise (HTTPException 500 ErrorDuringDownload), w4)).
  { change (stream_to_temp cfg (prepend chunks (SRaise e)) (log (EvGet u) w1))
      with ((try_except (relay_loop cfg p 0 (prepend chunks (SRaise e)))
               (fun _ => Some (unlink p;; abort 500 ErrorDuringDownload));;
             mret p) w2).
    unfold mbind at 1, M_bind at 1, try_except. rewrite Hrun.
    unfold mbind, M_bind, unlink. cbv beta iota. rewrite Hfile3.
    eexists. reflexivity. }
  destruct Hrelay as [w4 Hrelay].
  unfold handle_request, download.
  rewrite (bind_ok _ _ _ _ _ Hpre). cbv beta iota.
  rewrite (bind_ok _ _ _ _ _ (fetch_accepted env u w1 _ _ Hget Hst)).
  rewrite (bind_raise _ _ _ _ _ Hrelay). reflexivity.
Qed.

Lemma stream_failure_answers_500_witness :
  total_len [Samples.two_bytes] <= MAX_BYTES app_config /\
  fst (handle_request app_config
         (Samples.env_of (Samples.info_of (60 # 1) [Samples.mp4_480])
            (HttpResponse 200 (prepend [Samples.two_bytes] (SRaise RequestException))))
         Samples.request empty_world)
  = ErrorResponse 500 ErrorDuringDownload.
Proof.
  split; [vm_compute; discriminate |].
  destruct (preflight_sample
              (HttpResponse 200 (prepend [Samples.two_bytes] (SRaise RequestException))))
    as [w1 Hpre].
  refine (proj1 (stream_failure_answers_500 app_config _ _ _ w1 _ _ 200
                   [Samples.two_bytes] RequestException Hpre _ _ _)).
  - reflexivity.
  - lia.
  - vm_compute. discriminate.
Defined.

(** An instance of [download_serves_body]. *)
Lemma download_serves_body_witness :
  total_len [Samples.two_bytes; []; [Byte.x02]] <= MAX_BYTES app_config /\
  fst (handle_request app_config
         (Samples.env_of (Samples.info_of (60 # 1) [Samples.mp4_480])
            (HttpResponse 200 (prepend [Samples.two_bytes; []; [Byte.x02]] SEnd)))
         Samples.request empty_world)
  = Attachment (Filename._safe_filename (Some "a clip") "video") "video/mp4"
      (concat [Samples.two_bytes; []; [Byte.x02]]).
Proof.
  split; [vm_compute; discriminate |].
  destruct (preflight_sample
              (HttpResponse 200 (prepend [Samples.two_bytes; []; [Byte.x02]] SEnd)))
    as [w1 Hpre].
  refine (proj1 (download_serves_body app_config _ _ _ w1 _ _ 200
                   [Samples.two_bytes; []; [Byte.x02]] Hpre _ _ _)).
  - reflexivity.
  - lia.
  - vm_compute. discriminate.
Defined.

End PreflightFacts.
